(** * PEGY stock screener ([app.py]): model and verified properties

    The screener parses a free-text ticker list, fetches one dictionary of
    fundamentals per ticker, assembles the dictionaries into a table,
    derives the PEGY column, filters, ranks and exports.

    Modelling conventions.
    - Python [str] is [string]; the model covers ASCII text (one character
      per code point below 128), which is what ticker symbols are.
    - A Python [float] that is a number is an exact rational [Q]; the
      missing-value marker [np.nan] is the separate constructor [NaN].
      Floating-point error, overflow and infinities are outside the
      model; the two-decimal rounding of the display is not fixed by the
      model and enters as a function [rnd : Q -> Q].
    - The data provider answers per query: its answer may depend on the
      position of the ticker in the batch as well as on the ticker.
    - A Python [dict] and a table row are [gmap string _]; a [DataFrame] is
      its ordered column list together with its rows.
    - A raised exception is the [inr]/[None] branch of a result. *)

From Stdlib Require Import QArith Ascii String List Bool Arith Lia.
From Stdlib Require Import Sorting.Permutation Sorting.Sorted Structures.OrdersEx.
From stdpp Require Import gmap strings list fin_maps.
Import ListNotations.

Local Open Scope string_scope.
Local Open Scope list_scope.

(* ===================================================================== *)
(** * Ticker parser *)
(* ===================================================================== *)

Module Parser.

(** [str.isspace] on ASCII: TAB..CR, FS..US and the space. *)
Definition is_space (c : ascii) : bool :=
  let n := nat_of_ascii c in
  ((9 <=? n)%nat && (n <=? 13)%nat) || ((28 <=? n)%nat && (n <=? 32)%nat).

Definition is_lower (c : ascii) : bool :=
  let n := nat_of_ascii c in (97 <=? n)%nat && (n <=? 122)%nat.

Definition upper_char (c : ascii) : ascii :=
  if is_lower c then ascii_of_nat (nat_of_ascii c - 32) else c.

(** [s.upper()] *)
Fixpoint upper (s : string) : string :=
  match s with
  | EmptyString => EmptyString
  | String c r => String (upper_char c) (upper r)
  end.

(** [s.lstrip()] *)
Fixpoint lstrip (s : string) : string :=
  match s with
  | EmptyString => EmptyString
  | String c r => if is_space c then lstrip r else s
  end.

(** [s.rstrip()] *)
Fixpoint rstrip (s : string) : string :=
  match s with
  | EmptyString => EmptyString
  | String c r =>
      match rstrip r with
      | EmptyString => if is_space c then EmptyString else String c EmptyString
      | r' => String c r'
      end
  end.

(** [s.strip()] *)
Definition strip (s : string) : string := rstrip (lstrip s).

(** [s.replace(a, b)] for one-character [a] and [b]. *)
Fixpoint replace (a b : ascii) (s : string) : string :=
  match s with
  | EmptyString => EmptyString
  | String c r => String (if Ascii.eqb c a then b else c) (replace a b r)
  end.

(** Splitting at every character that satisfies [sep]; like Python's
    [split], the result always has at least one (possibly empty) piece. *)
Fixpoint split_where (sep : ascii -> bool) (s : string) : list string :=
  match s with
  | EmptyString => [EmptyString]
  | String c r =>
      if sep c then EmptyString :: split_where sep r
      else match split_where sep r with
           | h :: t => String c h :: t
           | [] => [String c EmptyString]
           end
  end.

(** [s.split(sep)] for a one-character separator. *)
Definition split (sep : ascii) (s : string) : list string :=
  split_where (Ascii.eqb sep) s.

(** Truth value of a Python string: non-empty. *)
Definition truthy (s : string) : bool :=
  match s with EmptyString => false | _ => true end.

Definition newline : ascii := "010"%char.
Definition comma : ascii := ","%char.

(** [parse_tickers], lines 56-58:
    [raw = [x.strip().upper() for x in txt.replace("\n", ",").split(",")]]
    [return [t for t in raw if t]] *)
Definition parse_tickers (txt : string) : list string :=
  let raw := List.map (fun x => upper (strip x)) (split comma (replace newline comma txt)) in
  List.filter truthy raw.

(** The wording of the design document: tokens are separated by commas
    and/or newlines; empty tokens are skipped; the rest are trimmed and
    upper-cased, in input order. *)
Definition is_separator (c : ascii) : bool :=
  Ascii.eqb c comma || Ascii.eqb c newline.

Definition tokens_spec (txt : string) : list string :=
  List.filter truthy (List.map (fun x => upper (strip x)) (split_where is_separator txt)).

(** A string is trimmed when stripping leaves it unchanged. *)
Definition trimmed (s : string) : Prop := strip s = s.

(** A string is upper-case when upper-casing leaves it unchanged. *)
Definition uppercased (s : string) : Prop := upper s = s.

End Parser.

(* ===================================================================== *)
(** * Tables *)
(* ===================================================================== *)

Module Frame.

(** What a table cell or a dictionary value holds: text, a number, or the
    missing-value marker [np.nan]. *)
Inductive cell : Type :=
  | Str (s : string)
  | Num (q : Q)
  | NaN.

(** The two ways the screening run can stop with an exception.  A
    division by zero is tracked as an error of its own: its outcome (an
    infinity) is not a value of the numeric model. *)
Inductive error : Type :=
  | KeyError (col : string)
  | ZeroDivision.

Inductive result (A : Type) : Type :=
  | Ok (a : A)
  | Raise (e : error).
Arguments Ok {A} a.
Arguments Raise {A} e.

#[export] Instance result_ret : MRet result := fun A a => Ok a.
#[export] Instance result_bind : MBind result := fun A B f m =>
  match m with
  | Ok a => f a
  | Raise e => Raise e
  end.

(** A Python dictionary literal: keys in insertion order. *)
Definition dict : Type := list (string * cell).

Definition dict_keys (d : dict) : list string := List.map fst d.

(** A column of a table. *)
Definition Series : Type := list cell.

(** A table: the ordered column labels and the rows, each row holding a
    cell for every column. *)
Record DataFrame : Type := mkFrame {
  columns : list string;
  rows : list (gmap string cell)
}.

(** Reading a cell of a row; a label the row does not carry reads as
    the missing-value marker. *)
Definition at_col (c : string) (r : gmap string cell) : cell :=
  default NaN (r !! c).

(** Appending the labels of [ks] that are not yet in [acc], in order. *)
Definition add_labels (acc ks : list string) : list string :=
  fold_left (fun a k => if decide (k ∈ a) then a else a ++ [k]) ks acc.

(** Column labels of [pd.DataFrame(list_of_dicts)]: the keys of all the
    dictionaries in order of first appearance. *)
Definition union_labels (ds : list dict) : list string :=
  fold_left (fun a d => add_labels a (dict_keys d)) ds [].

(** One dictionary laid out over the column labels; a label the
    dictionary lacks is filled with [NaN]. *)
Definition row_of (cols : list string) (d : dict) : gmap string cell :=
  let m : gmap string cell := list_to_map d in
  list_to_map (List.map (fun c => (c, at_col c m)) cols).

(** [pd.DataFrame(rows)] for a list of dictionaries. *)
Definition from_dicts (ds : list dict) : DataFrame :=
  let cols := union_labels ds in
  {| columns := cols; rows := List.map (row_of cols) ds |}.

(** [df[c]]: the column, or [KeyError] when there is no such label. *)
Definition getitem (df : DataFrame) (c : string) : result Series :=
  if decide (c ∈ columns df) then Ok (List.map (at_col c) (rows df))
  else Raise (KeyError c).

(** [df[c] = series]: overwrite the column in place, or append it as the
    last column when the label is new. *)
Definition setitem (df : DataFrame) (c : string) (s : Series) : DataFrame :=
  {| columns := if decide (c ∈ columns df) then columns df else columns df ++ [c];
     rows := zip_with (fun r v => <[c := v]> r) (rows df) s |}.

(** [df[c] = scalar]: the scalar is broadcast to every row. *)
Definition setitem_scalar (df : DataFrame) (c : string) (v : cell) : DataFrame :=
  setitem df c (List.map (fun _ => v) (rows df)).

(** [df[mask]]: the rows at which the boolean mask is true. *)
Definition select (df : DataFrame) (mask : list bool) : DataFrame :=
  {| columns := columns df;
     rows := List.map fst (List.filter snd (combine (rows df) mask)) |}.

(** [df[[c1; ...; cn]]]: the listed columns, in the listed order. *)
Definition project_row (cs : list string) (r : gmap string cell) : gmap string cell :=
  list_to_map (List.map (fun c => (c, at_col c r)) cs).

Definition getitems (df : DataFrame) (cs : list string) : result DataFrame :=
  match List.find (fun c => negb (bool_decide (c ∈ columns df))) cs with
  | Some c => Raise (KeyError c)
  | None => Ok {| columns := cs; rows := List.map (project_row cs) (rows df) |}
  end.

(** ** Element-wise operations on columns *)

(** [s.fillna(v)] *)
Definition fillna_cell (v : Q) (x : cell) : cell :=
  match x with NaN => Num v | _ => x end.
Definition fillna (v : Q) (s : Series) : Series := List.map (fillna_cell v) s.

(** [s.clip(lower=lo)]: numbers below [lo] are raised to [lo]; a missing
    value stays missing. *)
Definition clip_cell (lo : Q) (x : cell) : cell :=
  match x with
  | Num q => if Qle_bool lo q then Num q else Num lo
  | _ => x
  end.
Definition clip_lower (lo : Q) (s : Series) : Series := List.map (clip_cell lo) s.

(** [a + b]: a missing operand gives a missing sum. *)
Definition add_cell (a b : cell) : cell :=
  match a, b with
  | Num x, Num y => Num (x + y)
  | _, _ => NaN
  end.
Definition add (a b : Series) : Series := zip_with add_cell a b.

(** [s.replace({0: np.nan})] *)
Definition replace_zero_cell (x : cell) : cell :=
  match x with
  | Num q => if Qeq_bool q 0 then NaN else Num q
  | _ => x
  end.
Definition replace_zero (s : Series) : Series := List.map replace_zero_cell s.

(** [a / b]: a missing operand gives a missing quotient; a zero divisor
    is the [ZeroDivision] event. *)
Definition div_cell (a b : cell) : result cell :=
  match a, b with
  | Num x, Num y => if Qeq_bool y 0 then Raise ZeroDivision else Ok (Num (x / y))
  | _, _ => Ok NaN
  end.

Fixpoint div (a b : Series) : result Series :=
  match a, b with
  | x :: a', y :: b' =>
      q ← div_cell x y;
      qs ← div a' b';
      Ok (q :: qs)
  | _, _ => Ok []
  end.

(** [s >= v] and [s <= v]: a comparison with a missing value is false. *)
Definition ge_cell (v : Q) (x : cell) : bool :=
  match x with Num q => Qle_bool v q | _ => false end.
Definition le_cell (v : Q) (x : cell) : bool :=
  match x with Num q => Qle_bool q v | _ => false end.

(** ** Sorting *)

(** Order of a numeric sort key with [na_position="last"]: numbers in
    ascending order, then the missing values. *)
Definition num_compare (a b : cell) : comparison :=
  match a, b with
  | Num x, Num y => Qcompare x y
  | Num _, _ => Lt
  | _, Num _ => Gt
  | _, _ => Eq
  end.

(** Order of a text sort key: strings by code point, then the missing
    values. *)
Definition text_compare (a b : cell) : comparison :=
  match a, b with
  | Str s, Str t => String_as_OT.compare s t
  | Str _, _ => Lt
  | _, Str _ => Gt
  | _, _ => Eq
  end.

(** A three-way comparison that orders its carrier totally, up to the
    ties it reports as [Eq]. *)
Class WeakOrder {A : Type} (cmp : A -> A -> comparison) : Prop := {
  cmp_opp : forall x y, cmp y x = CompOpp (cmp x y);
  cmp_le_trans : forall x y z, cmp x y <> Gt -> cmp y z <> Gt -> cmp x z <> Gt
}.

(** Lexicographic order on the pair of keys. *)
Definition keys_leb (k1 k2 : string) (r s : gmap string cell) : bool :=
  match num_compare (at_col k1 r) (at_col k1 s) with
  | Lt => true
  | Gt => false
  | Eq => match text_compare (at_col k2 r) (at_col k2 s) with
          | Gt => false
          | _ => true
          end
  end.

(** A stable sort: a row is placed before the first row that is not
    smaller than it, so rows with equal keys keep their input order. *)
Fixpoint insert_by {A : Type} (leb : A -> A -> bool) (x : A) (l : list A) : list A :=
  match l with
  | [] => [x]
  | y :: t => if leb x y then x :: l else y :: insert_by leb x t
  end.

Definition stable_sort {A : Type} (leb : A -> A -> bool) (l : list A) : list A :=
  fold_right (insert_by leb) [] l.

(** [df.sort_values(by=[k1, k2], na_position="last", ascending=[True, True])] *)
Definition sort_values (df : DataFrame) (k1 k2 : string) : result DataFrame :=
  _ ← getitem df k1;
  _ ← getitem df k2;
  Ok {| columns := columns df; rows := stable_sort (keys_leb k1 k2) (rows df) |}.

(** ** CSV export *)

(** The exported file before its rendering as text: the header line and
    one record per row, each a list of fields. *)
Record Csv : Type := mkCsv {
  header : list string;
  records : list (list cell)
}.

(** [df.to_csv(index=False)]: every column of the table, in the table's
    column order, and no index field. *)
Definition to_csv (df : DataFrame) : Csv :=
  {| header := columns df;
     records := List.map (fun r => List.map (fun c => at_col c r) (columns df)) (rows df) |}.

End Frame.

(* ===================================================================== *)
(** * Fundamentals fetcher *)
(* ===================================================================== *)

Module Fetcher.
Import Frame.

(** The provider's key-value bag [t.info], as a partial record: [None] is
    a key that is missing or carries Python's [None]. *)
Record Info : Type := mkInfo {
  trailingPE : option Q;
  forwardPE : option Q;
  dividendYield : option Q;
  shortName : option string;
  longName : option string;
  currentPrice : option Q;
  regularMarketPrice : option Q;
  sector : option string
}.

Definition empty_info : Info :=
  mkInfo None None None None None None None None.

(** What reading [t.info] does: it yields the bag, there is no such
    attribute, or the lookup raises with a message. *)
Inductive InfoLookup : Type :=
  | InfoDict (i : Info)
  | InfoNoAttribute
  | InfoRaises (msg : string).

(** What reading [t.analysis] does: it raises, it yields [None], or it
    yields a table whose ["+5y"] column, if there is one, lists entries
    that may be missing. *)
Inductive AnalysisLookup : Type :=
  | AnalysisRaises
  | AnalysisNone
  | AnalysisTable (plus5y : option (list (option Q))).

(** The external data provider.  It is queried once for every entry of
    the ticker list, and its answer for one ticker may change from one
    query to the next (a lookup that raised is not kept by the result
    cache, so a ticker listed twice can fail once and succeed once): an
    answer depends on the number of the query within the batch and on the
    ticker.  The result cache of [st.cache_data] is not modelled; it only
    restricts which providers occur. *)
Record Provider : Type := mkProvider {
  lookup_info : nat -> string -> InfoLookup;
  lookup_analysis : nat -> string -> AnalysisLookup
}.

(** Truth value of an optional number: [None] and zero are false. *)
Definition num_truthy (o : option Q) : bool :=
  match o with
  | Some q => negb (Qeq_bool q 0)
  | None => false
  end.

(** Truth value of an optional string: [None] and the empty string are
    false. *)
Definition str_truthy (o : option string) : bool :=
  match o with
  | Some s => Parser.truthy s
  | None => false
  end.

(** Python's [a or b]: [a] when it is true, else [b]. *)
Definition or_num (a b : option Q) : option Q := if num_truthy a then a else b.
Definition or_str (a b : option string) : option string := if str_truthy a then a else b.

(** [info.get(key, np.nan)] *)
Definition get_or_nan (o : option Q) : cell :=
  match o with Some q => Num q | None => NaN end.

(** [analysis["+5y"].dropna()] *)
Definition dropna (col : list (option Q)) : list Q :=
  omap (fun x => x) col.

(** Lines 76-84: the analyst five-year growth, in percent; any failure
    of the sub-query leaves it missing. *)
Definition analyst_growth (a : AnalysisLookup) : cell :=
  match a with
  | AnalysisTable (Some col) =>
      match dropna col with
      | v :: _ => Num (v * 100)
      | [] => NaN
      end
  | _ => NaN
  end.

(** Line 87: [info.get("currentPrice") or info.get("regularMarketPrice") or np.nan] *)
Definition price_of (i : Info) : cell :=
  let p := or_num (currentPrice i) (regularMarketPrice i) in
  if num_truthy p then get_or_nan p else NaN.

(** Line 86: [info.get("shortName") or info.get("longName") or ticker] *)
Definition name_of (i : Info) (ticker : string) : string :=
  let n := or_str (shortName i) (longName i) in
  if str_truthy n then default ticker n else ticker.

(** Line 88: [info.get("sector") or ""] *)
Definition sector_of (i : Info) : string :=
  if str_truthy (sector i) then default "" (sector i) else "".

(** Lines 70-73: the dividend yield in percent; no value counts as 0. *)
Definition dividend_pct (i : Info) : Q :=
  (default 0 (dividendYield i) * 100)%Q.

(** Either the dictionary a call returns or the message of the exception
    it raises. *)
Inductive outcome : Type :=
  | Returned (d : dict)
  | Raised (msg : string).

(** [fetch_summary], lines 63-98; [query] is the number of the query
    that this call puts to the provider. *)
Definition summary_of (i : Info) (a : AnalysisLookup) (ticker : string) : dict :=
  [ ("Ticker", Str ticker);
    ("Name", Str (name_of i ticker));
    ("Price", price_of i);
    ("Sector", Str (sector_of i));
    ("Trailing PE", get_or_nan (trailingPE i));
    ("Forward PE", get_or_nan (forwardPE i));
    ("Dividend %", Num (dividend_pct i));
    ("Analyst 5y Growth %", analyst_growth a) ].

Definition fetch_summary (p : Provider) (query : nat) (ticker : string) : outcome :=
  match lookup_info p query ticker with
  | InfoRaises msg => Raised msg
  | InfoNoAttribute =>
      Returned (summary_of empty_info (lookup_analysis p query ticker) ticker)
  | InfoDict i => Returned (summary_of i (lookup_analysis p query ticker) ticker)
  end.

(** The dictionary appended in the [except] branch of [batch_fetch]. *)
Definition error_dict (ticker msg : string) : dict :=
  [ ("Ticker", Str ticker); ("Error", Str msg) ].

(** The body of the loop of [batch_fetch], lines 104-107: what one
    ticker appends to [rows]. *)
Definition fetch_or_error (p : Provider) (query : nat) (t : string) : dict :=
  match fetch_summary p query t with
  | Returned d => d
  | Raised msg => error_dict t msg
  end.

(** The list [rows] built by the loop of [batch_fetch], lines 102-107:
    the entry at position [k] of the ticker list is fetched by query
    number [k]. *)
Definition fetched_dicts (p : Provider) (tickers : list string) : list dict :=
  imap (fetch_or_error p) tickers.

Definition summary_keys : list string :=
  ["Ticker"; "Name"; "Price"; "Sector"; "Trailing PE"; "Forward PE";
   "Dividend %"; "Analyst 5y Growth %"].

(** [batch_fetch], lines 101-108. *)
Definition batch_fetch (p : Provider) (tickers : list string) : DataFrame :=
  from_dicts (fetched_dicts p tickers).

End Fetcher.

(* ===================================================================== *)
(** * PEGY pipeline *)
(* ===================================================================== *)

Module Screen.
Import Frame.

Inductive PEType : Type := ForwardPE | TrailingPE.
Inductive GrowthSource : Type := AnalystWithManualFallback | ManualOnly.

(** The sidebar inputs. *)
Record Config : Type := mkConfig {
  pe_type : PEType;
  growth_source : GrowthSource;
  manual_growth : Q;
  min_div_yield : Q;
  max_pegy : Q
}.

(** Line 118. *)
Definition pe_col (cfg : Config) : string :=
  match pe_type cfg with
  | ForwardPE => "Forward PE"
  | TrailingPE => "Trailing PE"
  end.

(** Lines 117-131: PE selection, growth selection and clamping. *)
Definition prepare (cfg : Config) (df : DataFrame) : result DataFrame :=
  pe ← getitem df (pe_col cfg);
  let df := setitem df "PE Used" pe in
  df ← match growth_source cfg with
       | AnalystWithManualFallback =>
           a ← getitem df "Analyst 5y Growth %";
           let df := setitem df "Growth % Used" a in
           g ← getitem df "Growth % Used";
           Ok (setitem df "Growth % Used" (fillna (manual_growth cfg) g))
       | ManualOnly =>
           Ok (setitem_scalar df "Growth % Used" (Num (manual_growth cfg)))
       end;
  d ← getitem df "Dividend %";
  let df := setitem df "Dividend %" (clip_lower 0 d) in
  g ← getitem df "Growth % Used";
  Ok (setitem df "Growth % Used" (clip_lower 0 g)).

(** Lines 134-135: the PEGY column. *)
Definition pegy_step (df : DataFrame) : result DataFrame :=
  g ← getitem df "Growth % Used";
  d ← getitem df "Dividend %";
  let denom := add g d in
  pe ← getitem df "PE Used";
  pegy ← div pe (replace_zero denom);
  Ok (setitem df "PEGY" pegy).

(** Lines 117-135. *)
Definition derive (cfg : Config) (df : DataFrame) : result DataFrame :=
  prepared ← prepare cfg df;
  pegy_step prepared.

(** Lines 138-142: the two optional filters. *)
Definition apply_filters (cfg : Config) (df : DataFrame) : result DataFrame :=
  let filtered := df in
  filtered ← (if Qlt_le_dec 0 (min_div_yield cfg)
              then d ← getitem filtered "Dividend %";
                   Ok (select filtered (List.map (ge_cell (min_div_yield cfg)) d))
              else Ok filtered);
  if Qlt_le_dec 0 (max_pegy cfg)
  then p ← getitem filtered "PEGY";
       Ok (select filtered (List.map (le_cell (max_pegy cfg)) p))
  else Ok filtered.

(** Line 145. *)
Definition rank (df : DataFrame) : result DataFrame :=
  sort_values df "PEGY" "Ticker".

(** [DataFrame.round] at two decimals acts on the numbers of a column
    and leaves text and missing values alone.  What it does to a number
    is the rounding of a double by the numeric library; the model does not
    fix it and takes it as the function [rnd]. *)
Definition round_cell (rnd : Q -> Q) (x : cell) : cell :=
  match x with Num q => Num (rnd q) | _ => x end.

Definition presentation_columns : list string :=
  ["Ticker"; "Name"; "Sector"; "Price"; "PE Used"; "Growth % Used"; "Dividend %"; "PEGY"].

Definition rounded_columns : list string :=
  ["Price"; "PE Used"; "Growth % Used"; "Dividend %"; "PEGY"].

(** [df.round({c: 2 for c in cs})] *)
Definition round_columns (rnd : Q -> Q) (cs : list string) (df : DataFrame) : DataFrame :=
  {| columns := columns df;
     rows := List.map (fun r => fold_right
               (fun c r' => if decide (c ∈ columns df)
                            then <[c := round_cell rnd (at_col c r)]> r' else r')
               r cs) (rows df) |}.

(** Lines 149-153: the table handed to the display. *)
Definition present (rnd : Q -> Q) (filtered : DataFrame) : result DataFrame :=
  shown ← getitems filtered presentation_columns;
  Ok (round_columns rnd rounded_columns shown).

(** Line 156: the export. *)
Definition export (filtered : DataFrame) : Csv := to_csv filtered.

(** What one run puts on the screen. *)
Record Output : Type := mkOutput {
  ranked : DataFrame;
  shown : DataFrame;
  csv : Csv
}.

(** Lines 115-157: the run on a fetched table. *)
Definition run_screen (rnd : Q -> Q) (cfg : Config) (df : DataFrame) : result Output :=
  derived ← derive cfg df;
  filtered ← apply_filters cfg derived;
  filtered ← rank filtered;
  table ← present rnd filtered;
  Ok {| ranked := filtered; shown := table; csv := export filtered |}.

(** What pressing the button leads to: the warning for an empty ticker
    list, an exception, or the results. *)
Inductive Page : Type :=
  | Warning
  | Exception (e : error)
  | Results (o : Output).

(** Lines 110-157. *)
Definition run_button (p : Fetcher.Provider) (rnd : Q -> Q) (cfg : Config)
    (tickers_text : string) : Page :=
  let tickers := Parser.parse_tickers tickers_text in
  match tickers with
  | [] => Warning
  | _ =>
      match run_screen rnd cfg (Fetcher.batch_fetch p tickers) with
      | Ok o => Results o
      | Raise e => Exception e
      end
  end.

End Screen.

(* ===================================================================== *)
(** * The pipeline, row by row *)
(* ===================================================================== *)

(** The column operations of the pipeline act on every row in the same
    way.  The definitions of this module say, in the words of the design
    document, what happens to one row; the theorems relate them to the
    column-wise code above. *)
Module Rowwise.
Import Frame Screen.

(** Step 2 for one row: the analyst growth with the manual figure where
    it is missing, or the manual figure for every row. *)
Definition growth_used (cfg : Config) (r : gmap string cell) : cell :=
  match growth_source cfg with
  | AnalystWithManualFallback =>
      fillna_cell (manual_growth cfg) (at_col "Analyst 5y Growth %" r)
  | ManualOnly => Num (manual_growth cfg)
  end.

(** Steps 1-3 for one row. *)
Definition prepare_row (cfg : Config) (r : gmap string cell) : gmap string cell :=
  let r1 := <["PE Used" := at_col (pe_col cfg) r]> r in
  let r2 := <["Growth % Used" := growth_used cfg r1]> r1 in
  let r3 := <["Dividend %" := clip_cell 0 (at_col "Dividend %" r2)]> r2 in
  <["Growth % Used" := clip_cell 0 (at_col "Growth % Used" r3)]> r3.

(** The columns that [prepare] reads. *)
Definition prepare_reads (cfg : Config) (cols : list string) : Prop :=
  pe_col cfg ∈ cols /\
  (growth_source cfg = AnalystWithManualFallback -> "Analyst 5y Growth %" ∈ cols) /\
  "Dividend %" ∈ cols.

(** The quotient of two cells once the divisor is known not to be zero. *)
Definition quot_cell (a b : cell) : cell :=
  match a, b with
  | Num x, Num y => Num (x / y)
  | _, _ => NaN
  end.

(** Step 4 for one row. *)
Definition pegy_of (r : gmap string cell) : cell :=
  let denom := add_cell (at_col "Growth % Used" r) (at_col "Dividend %" r) in
  quot_cell (at_col "PE Used" r) (replace_zero_cell denom).

Definition pegy_row (r : gmap string cell) : gmap string cell :=
  <["PEGY" := pegy_of r]> r.

Definition derive_row (cfg : Config) (r : gmap string cell) : gmap string cell :=
  pegy_row (prepare_row cfg r).

(** The columns after the derivation: the three derived labels are
    appended unless the table already had them. *)
Definition prepared_columns (cols : list string) : list string :=
  add_labels cols ["PE Used"; "Growth % Used"].

Definition derived_columns (cols : list string) : list string :=
  add_labels cols ["PE Used"; "Growth % Used"; "PEGY"].

(** Step 5 for one row, as the code tests it. *)
Definition keep_row (cfg : Config) (r : gmap string cell) : bool :=
  (if Qlt_le_dec 0 (min_div_yield cfg)
   then ge_cell (min_div_yield cfg) (at_col "Dividend %" r) else true)
  &&
  (if Qlt_le_dec 0 (max_pegy cfg)
   then le_cell (max_pegy cfg) (at_col "PEGY" r) else true).

(** Step 5 for one row, in the words of the design document: the
    dividend is at least the minimum unless the minimum is 0, and the
    PEGY is at most the maximum unless the maximum is 0. *)
Definition passes_filters (cfg : Config) (r : gmap string cell) : Prop :=
  (min_div_yield cfg == 0 \/
   exists d, at_col "Dividend %" r = Num d /\ min_div_yield cfg <= d)%Q
  /\
  (max_pegy cfg == 0 \/
   exists p, at_col "PEGY" r = Num p /\ p <= max_pegy cfg)%Q.

(** A cell that holds no number. *)
Definition absent (x : cell) : Prop := forall q, x <> Num q.

(** Step 6, in the words of the design document: [r] may stand before
    [s] when its PEGY is smaller, or [s] has no PEGY and [r] has one, or
    the two PEGY agree (or are both missing) and the ticker of [r] is not
    after the ticker of [s]. *)
Definition ranks_before (r s : gmap string cell) : Prop :=
  match at_col "PEGY" r, at_col "PEGY" s with
  | Num x, Num y =>
      (x < y)%Q \/ ((x == y)%Q /\ text_compare (at_col "Ticker" r) (at_col "Ticker" s) <> Gt)
  | Num _, _ => True
  | _, Num _ => False
  | _, _ => text_compare (at_col "Ticker" r) (at_col "Ticker" s) <> Gt
  end.

(** A cell that holds no negative number. *)
Definition not_negative (x : cell) : Prop := forall q, x = Num q -> (0 <= q)%Q.

(** The denominator of the PEGY of a row is exactly 0. *)
Definition zero_denominator (r : gmap string cell) : Prop :=
  exists g d, at_col "Growth % Used" r = Num g /\ at_col "Dividend %" r = Num d /\
              (g + d == 0)%Q.

(** The cells of a row in the order of the given labels. *)
Definition cells_of (cs : list string) (r : gmap string cell) : list cell :=
  List.map (fun c => at_col c r) cs.

End Rowwise.

(* ===================================================================== *)
(** * Sample data *)
(* ===================================================================== *)

(** A small provider, a few configurations and a few tables on which the
    statements below are exercised. *)
Module Samples.
Import Frame Fetcher Screen.

Definition aapl_info : Info :=
  {| trailingPE := Some 25%Q; forwardPE := Some 20%Q;
     dividendYield := Some 0.02%Q;
     shortName := Some "Apple"; longName := Some "Apple Inc.";
     currentPrice := Some 150%Q; regularMarketPrice := Some 149%Q;
     sector := Some "Technology" |}.

(** A bag whose current price is present with value 0, whose short name
    is empty and whose dividend yield is negative. *)
Definition ko_info : Info :=
  {| trailingPE := Some 24%Q; forwardPE := None;
     dividendYield := Some (-0.01)%Q;
     shortName := Some ""; longName := Some "Coca-Cola";
     currentPrice := Some 0%Q; regularMarketPrice := Some 60%Q;
     sector := None |}.

(** A bag whose current price is 0 and that has no regular market
    price. *)
Definition zero_price_info : Info :=
  {| trailingPE := None; forwardPE := None; dividendYield := None;
     shortName := None; longName := None;
     currentPrice := Some 0%Q; regularMarketPrice := None;
     sector := None |}.

(** A sample rounding to two decimals for the runs evaluated below: the
    nearest hundredth of the exact value, ties to the even neighbour.  The
    properties of the display are proved for every rounding function, not
    for this one. *)
Definition half_even (q : Q) : Q :=
  let n := (Qnum q * 100)%Z in
  let d := Zpos (Qden q) in
  let fl := (n / d)%Z in
  let r := (n mod d)%Z in
  match (2 * r ?= d)%Z with
  | Lt => fl # 100
  | Gt => (fl + 1) # 100
  | Eq => (if Z.even fl then fl else fl + 1) # 100
  end.

(** A provider that answers every query for a ticker alike: the lookup
    of ["BAD"] raises; every other symbol is known. *)
Definition provider : Provider :=
  {| lookup_info := fun _ t =>
       if String.eqb t "AAPL" then InfoDict aapl_info
       else if String.eqb t "KO" then InfoDict ko_info
       else if String.eqb t "BAD" then InfoRaises "boom"
       else InfoDict empty_info;
     lookup_analysis := fun _ t =>
       if String.eqb t "AAPL" then AnalysisTable (Some [None; Some 0.08%Q])
       else if String.eqb t "KO" then AnalysisRaises
       else AnalysisNone |}.

(** A provider whose answers change: its first query succeeds like
    [provider] and every later query raises. *)
Definition flaky_provider : Provider :=
  {| lookup_info := fun query t =>
       match query with
       | O => lookup_info provider query t
       | S _ => InfoRaises "timeout"
       end;
     lookup_analysis := lookup_analysis provider |}.

Definition manual_config : Config :=
  {| pe_type := ForwardPE; growth_source := ManualOnly;
     manual_growth := 10; min_div_yield := 0; max_pegy := 2 |}.

Definition analyst_config : Config :=
  {| pe_type := TrailingPE; growth_source := AnalystWithManualFallback;
     manual_growth := 10; min_div_yield := 0.5; max_pegy := 0 |}.

(** A configuration with a negative manual growth, which the input
    widget would not produce. *)
Definition negative_config : Config :=
  {| pe_type := TrailingPE; growth_source := ManualOnly;
     manual_growth := -5; min_div_yield := 0; max_pegy := 0 |}.

(** A configuration with both filters switched off. *)
Definition unfiltered_config : Config :=
  {| pe_type := ForwardPE; growth_source := AnalystWithManualFallback;
     manual_growth := 10; min_div_yield := 0; max_pegy := 0 |}.

Definition pegy_only_config : Config :=
  {| pe_type := ForwardPE; growth_source := ManualOnly;
     manual_growth := 10; min_div_yield := 0; max_pegy := 1 |}.

Definition three_tickers : list string := ["AAPL"; "BAD"; "KO"].

(** The four rows of the sorting example of the design document. *)
Definition key_row (pegy : cell) (ticker : string) : gmap string cell :=
  {[ "PEGY" := pegy; "Ticker" := Str ticker ]}.

Definition unsorted : DataFrame :=
  {| columns := ["PEGY"; "Ticker"];
     rows := [key_row (Num 1.5) "Z"; key_row (Num 0.9) "B";
              key_row NaN "C"; key_row (Num 0.9) "A"] |}.

Definition sorted : DataFrame :=
  {| columns := ["PEGY"; "Ticker"];
     rows := [key_row (Num 0.9) "A"; key_row (Num 0.9) "B";
              key_row (Num 1.5) "Z"; key_row NaN "C"] |}.

(** The three rows of the filtering example of the design document. *)
Definition scored_row (ticker : string) (dividend pegy : cell) : gmap string cell :=
  {[ "Ticker" := Str ticker; "Dividend %" := dividend; "PEGY" := pegy ]}.

Definition scored : DataFrame :=
  {| columns := ["Ticker"; "Dividend %"; "PEGY"];
     rows := [scored_row "A" (Num 2) (Num 0.8); scored_row "B" (Num 1) (Num 1.2);
              scored_row "C" (Num 3) NaN] |}.

End Samples.

(* ===================================================================== *)
(** * Notions used to state further properties *)
(* ===================================================================== *)

Module Notions.
Import Frame Fetcher Screen.

(** Every character of a string passes a test. *)
Fixpoint all_chars (P : ascii -> bool) (s : string) : bool :=
  match s with
  | EmptyString => true
  | String c r => P c && all_chars P r
  end.

(** A character that cannot be part of a symbol on its own account:
    white space or a separator. *)
Definition is_blank (c : ascii) : bool :=
  Parser.is_space c || Parser.is_separator c.

(** The fetch of a ticker returns a summary. *)
Definition returns (p : Provider) (query : nat) (t : string) : Prop :=
  exists d, fetch_summary p query t = Returned d.

(** The fetch of a ticker raises. *)
Definition raises (p : Provider) (query : nat) (t : string) : Prop :=
  exists msg, fetch_summary p query t = Raised msg.

(** Two rows that the ranking order cannot tell apart. *)
Definition tied (r s : gmap string cell) : Prop :=
  Rowwise.ranks_before r s /\ Rowwise.ranks_before s r.

End Notions.

(* ===================================================================== *)
(** * Properties of the ticker parser *)
(* ===================================================================== *)

Module ParserFacts.
Import Parser.

Lemma is_space_upper_char (c : ascii) : is_space (upper_char c) = is_space c.
Proof. destruct c as [[] [] [] [] [] [] [] []]; reflexivity. Qed.

Lemma upper_char_idem (c : ascii) : upper_char (upper_char c) = upper_char c.
Proof. destruct c as [[] [] [] [] [] [] [] []]; reflexivity. Qed.

Lemma upper_idem (s : string) : upper (upper s) = upper s.
Proof.
  induction s as [|c r IH]; simpl; [reflexivity|].
  now rewrite upper_char_idem, IH.
Qed.

Lemma lstrip_upper (s : string) : lstrip (upper s) = upper (lstrip s).
Proof.
  induction s as [|c r IH]; simpl; [reflexivity|].
  rewrite is_space_upper_char. destruct (is_space c); [exact IH | reflexivity].
Qed.

Lemma upper_empty (s : string) : upper s = EmptyString -> s = EmptyString.
Proof. destruct s; simpl; [reflexivity | discriminate]. Qed.

Lemma rstrip_upper (s : string) : rstrip (upper s) = upper (rstrip s).
Proof.
  induction s as [|c r IH]; simpl; [reflexivity|].
  rewrite IH, is_space_upper_char.
  destruct (rstrip r) as [|c' r']; simpl.
  - destruct (is_space c); reflexivity.
  - reflexivity.
Qed.

Lemma strip_upper (s : string) : strip (upper s) = upper (strip s).
Proof. unfold strip. now rewrite lstrip_upper, rstrip_upper. Qed.

(** What [lstrip] returns does not start with a space. *)
Lemma lstrip_head (s : string) :
  lstrip s = EmptyString \/
  exists c r, lstrip s = String c r /\ is_space c = false.
Proof.
  induction s as [|c r IH]; simpl; [now left|].
  destruct (is_space c) eqn:E; [exact IH|].
  right. now exists c, r.
Qed.

Lemma rstrip_nonspace_head (c : ascii) (r : string) :
  is_space c = false -> rstrip (String c r) = String c (rstrip r).
Proof.
  intros E. simpl. destruct (rstrip r); [now rewrite E | reflexivity].
Qed.

Lemma rstrip_idem (s : string) : rstrip (rstrip s) = rstrip s.
Proof.
  induction s as [|c r IH]; simpl; [reflexivity|].
  destruct (rstrip r) as [|c' r'] eqn:E.
  - destruct (is_space c) eqn:Ec; simpl; [reflexivity | now rewrite Ec].
  - change (rstrip (String c (String c' r')) = String c (String c' r')).
    simpl. simpl in IH. rewrite IH. reflexivity.
Qed.

Lemma strip_idem (s : string) : strip (strip s) = strip s.
Proof.
  unfold strip.
  destruct (lstrip_head s) as [E | (c & r & E & Hc)]; rewrite E.
  - reflexivity.
  - rewrite (rstrip_nonspace_head c r Hc). simpl lstrip. rewrite Hc.
    rewrite <- (rstrip_nonspace_head c r Hc). apply rstrip_idem.
Qed.

(** Splitting after turning newlines into commas is splitting at both. *)
Lemma split_replace (txt : string) :
  split comma (replace newline comma txt) = split_where is_separator txt.
Proof.
  unfold split.
  induction txt as [|c r IH]; cbn [split_where replace]; [reflexivity|].
  rewrite IH. unfold is_separator.
  destruct (Ascii.eqb c newline) eqn:En.
  - apply Ascii.eqb_eq in En. subst c. reflexivity.
  - rewrite orb_false_r. rewrite (Ascii.eqb_sym comma c). reflexivity.
Qed.

Lemma truthy_nonempty (s : string) : truthy s = true <-> s <> EmptyString.
Proof. destruct s; simpl; split; congruence. Qed.

(** C1, refuted as stated: the parser does not remove duplicates; a
    symbol typed twice is returned twice. *)
Lemma parse_tickers_keeps_duplicates :
  parse_tickers "AAPL, AAPL" = ["AAPL"; "AAPL"] /\
  ~ NoDup (parse_tickers "AAPL, AAPL").
Proof.
  split; [reflexivity|].
  intros H. change (NoDup ["AAPL"; "AAPL"]) in H.
  apply NoDup_cons in H as [H _]. apply H. left.
Qed.

(** C1, amended: for every input text the parser returns, in input order,
    the tokens between the separators (comma or newline), each trimmed and
    upper-cased, with the empty ones skipped and duplicates kept; every
    returned symbol is non-empty, trimmed and upper-case. *)
Theorem parse_tickers_ordered_tokens (txt : string) :
  parse_tickers txt = tokens_spec txt /\
  Forall (fun t => t <> EmptyString /\ trimmed t /\ uppercased t) (parse_tickers txt).
Proof.
  split.
  - unfold parse_tickers, tokens_spec. now rewrite split_replace.
  - unfold parse_tickers. apply Forall_forall. intros t Ht.
    apply list_elem_of_In, filter_In in Ht. destruct Ht as [Ht Hne].
    apply in_map_iff in Ht. destruct Ht as (x & <- & _).
    split; [now apply truthy_nonempty|]. split.
    + unfold trimmed. now rewrite strip_upper, strip_idem.
    + unfold uppercased. apply upper_idem.
Qed.

End ParserFacts.

(* ===================================================================== *)
(** * Properties of the table operations *)
(* ===================================================================== *)

Module FrameFacts.
Import Frame.

Lemma bind_Ok {A B : Type} (a : A) (f : A -> result B) : (Ok a ≫= f) = f a.
Proof. reflexivity. Qed.

Lemma bind_Ok_inv {A B : Type} (m : result A) (f : A -> result B) (b : B) :
  (m ≫= f) = Ok b -> exists a, m = Ok a /\ f a = Ok b.
Proof. destruct m as [a|e]; [|discriminate]. intros H. now exists a. Qed.

(** ** Column labels *)

Lemma elem_of_add_labels (c : string) (ks acc : list string) :
  c ∈ add_labels acc ks <-> c ∈ acc \/ c ∈ ks.
Proof.
  unfold add_labels. revert acc.
  induction ks as [|k ks IH]; intros acc; simpl.
  - rewrite elem_of_nil. tauto.
  - rewrite IH, elem_of_cons. destruct (decide (k ∈ acc)) as [Hk|Hk].
    + split; [tauto|]. intros [H|[->|H]]; tauto.
    + rewrite elem_of_app, list_elem_of_singleton. tauto.
Qed.

Lemma add_labels_app (acc ks1 ks2 : list string) :
  add_labels acc (ks1 ++ ks2) = add_labels (add_labels acc ks1) ks2.
Proof. unfold add_labels. apply fold_left_app. Qed.

Lemma add_labels_fresh (acc ks : list string) :
  NoDup ks -> (forall k, k ∈ ks -> k ∉ acc) -> add_labels acc ks = acc ++ ks.
Proof.
  unfold add_labels. revert acc.
  induction ks as [|k ks IH]; intros acc Hnd Hfresh; simpl.
  - now rewrite app_nil_r.
  - apply NoDup_cons in Hnd as [Hk Hnd].
    destruct (decide (k ∈ acc)) as [Hin|_].
    + exfalso. apply (Hfresh k); [left | exact Hin].
    + rewrite IH; [now rewrite <- app_assoc | exact Hnd |].
      intros k' Hk' Hin. apply elem_of_app in Hin as [Hin|Hin].
      * apply (Hfresh k'); [now right | exact Hin].
      * apply list_elem_of_singleton in Hin. now subst k'.
Qed.

Lemma elem_of_union_labels (c : string) (ds : list dict) :
  c ∈ union_labels ds <-> exists d, d ∈ ds /\ c ∈ dict_keys d.
Proof.
  unfold union_labels.
  assert (G : forall acc, c ∈ fold_left (fun a d => add_labels a (dict_keys d)) ds acc
                          <-> c ∈ acc \/ exists d, d ∈ ds /\ c ∈ dict_keys d).
  { induction ds as [|d ds IH]; intros acc; simpl.
    - split; [now left|]. intros [H|(d & Hd & _)]; [exact H|]. now apply elem_of_nil in Hd.
    - rewrite IH, elem_of_add_labels. split.
      + intros [[H|H]|(d' & Hd' & H)]; [now left | right; exists d | right; exists d'].
        * split; [left | exact H].
        * split; [now right | exact H].
      + intros [H|(d' & Hd' & H)]; [now left; left|].
        apply elem_of_cons in Hd' as [->|Hd']; [now left; right|].
        right. now exists d'. }
  rewrite G. rewrite elem_of_nil. tauto.
Qed.

(** ** Rows *)

Lemma lookup_tabulate (f : string -> cell) (cs : list string) (c : string) :
  (list_to_map (List.map (fun c => (c, f c)) cs) : gmap string cell) !! c
  = if decide (c ∈ cs) then Some (f c) else None.
Proof.
  induction cs as [|k cs IH]; simpl.
  - rewrite lookup_empty. destruct (decide (c ∈ [])) as [H|_]; [|reflexivity].
    now apply elem_of_nil in H.
  - rewrite lookup_insert. destruct (decide (k = c)) as [->|Hne].
    + destruct (decide (c ∈ c :: cs)) as [_|H]; [reflexivity|].
      exfalso. apply H. left.
    + rewrite IH. destruct (decide (c ∈ cs)) as [H|H];
        destruct (decide (c ∈ k :: cs)) as [H'|H']; try reflexivity.
      * exfalso. apply H'. now right.
      * exfalso. apply elem_of_cons in H' as [->|H']; [now apply Hne | now apply H].
Qed.

Lemma at_col_row_of (cols : list string) (d : dict) (c : string) :
  c ∈ cols -> at_col c (row_of cols d) = at_col c (list_to_map d).
Proof.
  intros Hc. unfold row_of, at_col at 1. rewrite lookup_tabulate.
  destruct (decide (c ∈ cols)); [reflexivity | contradiction].
Qed.

Lemma at_col_row_of_missing (cols : list string) (d : dict) (c : string) :
  c ∉ dict_keys d -> at_col c (row_of cols d) = NaN.
Proof.
  intros Hc. unfold row_of, at_col at 1. rewrite lookup_tabulate.
  destruct (decide (c ∈ cols)); [|reflexivity]. simpl.
  unfold at_col. rewrite (not_elem_of_list_to_map_1 d c); [reflexivity|].
  exact Hc.
Qed.

Lemma at_col_project_row (cs : list string) (r : gmap string cell) (c : string) :
  c ∈ cs -> at_col c (project_row cs r) = at_col c r.
Proof.
  intros Hc. unfold project_row, at_col at 1. rewrite lookup_tabulate.
  destruct (decide (c ∈ cs)); [reflexivity | contradiction].
Qed.

Lemma at_col_insert (c : string) (v : cell) (r : gmap string cell) :
  at_col c (<[c := v]> r) = v.
Proof. unfold at_col. now rewrite lookup_insert_eq. Qed.

Lemma at_col_insert_ne (c c' : string) (v : cell) (r : gmap string cell) :
  c <> c' -> at_col c' (<[c := v]> r) = at_col c' r.
Proof. intros H. unfold at_col. now rewrite lookup_insert_ne. Qed.

(** ** Reading and writing columns of a table given row by row *)

Section ColumnsOfMappedRows.
Context {X : Type}.
Variables (cols : list string) (l : list X) (g : X -> gmap string cell).

Lemma getitem_map (c : string) :
  c ∈ cols ->
  getitem (mkFrame cols (List.map g l)) c = Ok (List.map (fun x => at_col c (g x)) l).
Proof.
  intros Hc. unfold getitem. simpl.
  destruct (decide (c ∈ cols)); [|contradiction].
  now rewrite map_map.
Qed.

Lemma getitem_map_missing (c : string) :
  c ∉ cols -> getitem (mkFrame cols (List.map g l)) c = Raise (KeyError c).
Proof.
  intros Hc. unfold getitem. simpl.
  destruct (decide (c ∈ cols)); [contradiction | reflexivity].
Qed.

Lemma zip_with_map_same {Y Z : Type} (op : Y -> Z -> Y) (a : X -> Y) (b : X -> Z) :
  zip_with op (List.map a l) (List.map b l) = List.map (fun x => op (a x) (b x)) l.
Proof. induction l as [|x t IH]; simpl; [reflexivity | now rewrite IH]. Qed.

Lemma setitem_map (c : string) (h : X -> cell) :
  setitem (mkFrame cols (List.map g l)) c (List.map h l)
  = mkFrame (add_labels cols [c]) (List.map (fun x => <[c := h x]> (g x)) l).
Proof.
  unfold setitem. simpl. f_equal.
  apply (zip_with_map_same (fun r v => <[c := v]> r) g h).
Qed.

Lemma setitem_scalar_map (c : string) (v : cell) :
  setitem_scalar (mkFrame cols (List.map g l)) c v
  = mkFrame (add_labels cols [c]) (List.map (fun x => <[c := v]> (g x)) l).
Proof.
  unfold setitem_scalar. simpl. rewrite map_map. apply setitem_map.
Qed.

Lemma add_map (a b : X -> cell) :
  add (List.map a l) (List.map b l) = List.map (fun x => add_cell (a x) (b x)) l.
Proof.
  unfold add. induction l as [|x t IH]; simpl; [reflexivity | now rewrite IH].
Qed.

Lemma div_map (a b q : X -> cell) :
  (forall x, div_cell (a x) (b x) = Ok (q x)) ->
  div (List.map a l) (List.map b l) = Ok (List.map q l).
Proof.
  intros H. induction l as [|x t IH]; simpl; [reflexivity|].
  rewrite H. simpl. rewrite IH. reflexivity.
Qed.

Lemma select_map (f : X -> bool) :
  select (mkFrame cols (List.map g l)) (List.map f l)
  = mkFrame cols (List.map g (List.filter f l)).
Proof.
  unfold select. simpl. f_equal.
  induction l as [|x t IH]; simpl; [reflexivity|].
  destruct (f x); simpl; now rewrite IH.
Qed.
End ColumnsOfMappedRows.

Lemma frame_eta (df : DataFrame) :
  df = mkFrame (columns df) (List.map (fun r => r) (rows df)).
Proof. destruct df as [cs rs]. simpl. now rewrite map_id. Qed.

Lemma getitem_Ok_inv (df : DataFrame) (c : string) (s : Series) :
  getitem df c = Ok s -> c ∈ columns df /\ s = List.map (at_col c) (rows df).
Proof.
  unfold getitem. destruct (decide (c ∈ columns df)); [|discriminate].
  intros [= <-]. now split.
Qed.

End FrameFacts.

(* ===================================================================== *)
(** * The column-wise code acts row by row *)
(* ===================================================================== *)

Module ScreenFacts.
Import Frame Screen Rowwise FrameFacts.

Lemma add_labels_present (acc : list string) (k : string) :
  k ∈ acc -> add_labels acc [k] = acc.
Proof.
  intros H. unfold add_labels. simpl.
  destruct (decide (k ∈ acc)); [reflexivity | contradiction].
Qed.

Lemma fillna_map {X : Type} (v : Q) (h : X -> cell) (l : list X) :
  fillna v (List.map h l) = List.map (fun x => fillna_cell v (h x)) l.
Proof. unfold fillna. apply map_map. Qed.

Lemma clip_lower_map {X : Type} (lo : Q) (h : X -> cell) (l : list X) :
  clip_lower lo (List.map h l) = List.map (fun x => clip_cell lo (h x)) l.
Proof. unfold clip_lower. apply map_map. Qed.

Lemma replace_zero_map {X : Type} (h : X -> cell) (l : list X) :
  replace_zero (List.map h l) = List.map (fun x => replace_zero_cell (h x)) l.
Proof. unfold replace_zero. apply map_map. Qed.

(** After the zero divisors are replaced, the division cannot meet one. *)
Lemma div_cell_replace_zero (a b : cell) :
  div_cell a (replace_zero_cell b) = Ok (quot_cell a (replace_zero_cell b)).
Proof.
  destruct a as [s|x|], b as [t|y|]; simpl; try reflexivity.
  destruct (Qeq_bool y 0) eqn:E; simpl; [reflexivity|]. now rewrite E.
Qed.

Lemma pe_col_cases (cfg : Config) :
  pe_col cfg = "Forward PE" \/ pe_col cfg = "Trailing PE".
Proof. unfold pe_col. destruct (pe_type cfg); [now left | now right]. Qed.

Ltac label_in :=
  repeat rewrite elem_of_add_labels;
  repeat rewrite elem_of_cons;
  tauto.

Lemma prepare_rowwise (cfg : Config) (df : DataFrame) :
  prepare_reads cfg (columns df) ->
  prepare cfg df
  = Ok (mkFrame (prepared_columns (columns df)) (List.map (prepare_row cfg) (rows df))).
Proof.
  intros (Hpe & Han & Hd).
  assert (HD : "Dividend %" ∈ prepared_columns (columns df))
    by (unfold prepared_columns; label_in).
  assert (HG : "Growth % Used" ∈ prepared_columns (columns df))
    by (unfold prepared_columns; label_in).
  rewrite (frame_eta df) at 1. unfold prepare.
  rewrite getitem_map by exact Hpe. rewrite bind_Ok. cbv zeta.
  rewrite setitem_map.
  destruct (growth_source cfg) eqn:Egs.
  - rewrite getitem_map by (specialize (Han eq_refl); label_in).
    rewrite bind_Ok. cbv zeta. rewrite setitem_map.
    rewrite getitem_map by label_in.
    rewrite bind_Ok. rewrite fillna_map, setitem_map. rewrite bind_Ok.
    rewrite (add_labels_present _ "Growth % Used") by label_in.
    change (add_labels (add_labels (columns df) ["PE Used"]) ["Growth % Used"])
      with (prepared_columns (columns df)).
    rewrite getitem_map by exact HD. rewrite bind_Ok. cbv zeta.
    rewrite clip_lower_map, setitem_map.
    rewrite (add_labels_present _ "Dividend %") by exact HD.
    rewrite getitem_map by exact HG. rewrite bind_Ok.
    rewrite clip_lower_map, setitem_map.
    rewrite (add_labels_present _ "Growth % Used") by exact HG.
    f_equal. f_equal. apply map_ext. intros r.
    unfold prepare_row, growth_used. rewrite Egs. cbv zeta.
    rewrite at_col_insert, insert_insert_eq. reflexivity.
  - rewrite setitem_scalar_map. rewrite bind_Ok.
    change (add_labels (add_labels (columns df) ["PE Used"]) ["Growth % Used"])
      with (prepared_columns (columns df)).
    rewrite getitem_map by exact HD. rewrite bind_Ok. cbv zeta.
    rewrite clip_lower_map, setitem_map.
    rewrite (add_labels_present _ "Dividend %") by exact HD.
    rewrite getitem_map by exact HG. rewrite bind_Ok.
    rewrite clip_lower_map, setitem_map.
    rewrite (add_labels_present _ "Growth % Used") by exact HG.
    f_equal. f_equal. apply map_ext. intros r.
    unfold prepare_row, growth_used. rewrite Egs. reflexivity.
Qed.

Lemma columns_setitem (df : DataFrame) (c : string) (s : Series) :
  columns (setitem df c s) = add_labels (columns df) [c].
Proof. reflexivity. Qed.

Lemma elem_of_add_one (c k : string) (acc : list string) :
  c <> k -> c ∈ add_labels acc [k] -> c ∈ acc.
Proof.
  intros Hne H. apply elem_of_add_labels in H as [H|H]; [exact H|].
  apply list_elem_of_singleton in H. contradiction.
Qed.

Ltac label_inv H :=
  unfold setitem_scalar in H;
  repeat rewrite columns_setitem in H;
  repeat (apply elem_of_add_one in H; [|discriminate]).

Lemma prepare_Ok_inv (cfg : Config) (df df' : DataFrame) :
  prepare cfg df = Ok df' ->
  prepare_reads cfg (columns df) /\
  df' = mkFrame (prepared_columns (columns df)) (List.map (prepare_row cfg) (rows df)).
Proof.
  intros H.
  assert (R : prepare_reads cfg (columns df)).
  { unfold prepare in H.
    apply bind_Ok_inv in H as (pe & Hpe & H).
    apply getitem_Ok_inv in Hpe as [Hpe _]. cbv zeta in H.
    apply bind_Ok_inv in H as (df2 & Hdf2 & H).
    apply bind_Ok_inv in H as (d & Hd & _).
    apply getitem_Ok_inv in Hd as [Hd _].
    split; [exact Hpe|].
    destruct (growth_source cfg) eqn:Egs.
    - apply bind_Ok_inv in Hdf2 as (a & Ha & Hdf2).
      apply getitem_Ok_inv in Ha as [Ha _]. cbv zeta in Hdf2.
      apply bind_Ok_inv in Hdf2 as (g & _ & Hdf2).
      injection Hdf2 as <-.
      label_inv Ha. label_inv Hd. split; [intros _; exact Ha | exact Hd].
    - injection Hdf2 as <-. label_inv Hd.
      split; [discriminate | exact Hd]. }
  split; [exact R|].
  rewrite (prepare_rowwise cfg df R) in H. now injection H as <-.
Qed.

(** The PEGY step needs its three operand columns and nothing else: it
    never meets a zero divisor. *)
Lemma pegy_step_rowwise (df : DataFrame) :
  "Growth % Used" ∈ columns df -> "Dividend %" ∈ columns df -> "PE Used" ∈ columns df ->
  pegy_step df = Ok (mkFrame (add_labels (columns df) ["PEGY"]) (List.map pegy_row (rows df))).
Proof.
  intros HG HD HP.
  rewrite (frame_eta df) at 1. unfold pegy_step.
  rewrite (getitem_map _ _ _ "Growth % Used") by exact HG. rewrite bind_Ok.
  rewrite (getitem_map _ _ _ "Dividend %") by exact HD. rewrite bind_Ok. cbv zeta.
  rewrite (getitem_map _ _ _ "PE Used") by exact HP. rewrite bind_Ok.
  rewrite add_map, replace_zero_map.
  rewrite (div_map _ _ _ pegy_of) by (intros r; apply div_cell_replace_zero).
  rewrite bind_Ok. rewrite setitem_map. reflexivity.
Qed.

Lemma pegy_step_Ok_inv (df df' : DataFrame) :
  pegy_step df = Ok df' ->
  df' = mkFrame (add_labels (columns df) ["PEGY"]) (List.map pegy_row (rows df)).
Proof.
  intros H. pose proof H as H0. unfold pegy_step in H.
  apply bind_Ok_inv in H as (g & Hg & H). apply getitem_Ok_inv in Hg as [Hg _].
  apply bind_Ok_inv in H as (d & Hd & H). apply getitem_Ok_inv in Hd as [Hd _].
  cbv zeta in H.
  apply bind_Ok_inv in H as (pe & Hpe & _). apply getitem_Ok_inv in Hpe as [Hpe _].
  rewrite (pegy_step_rowwise df Hg Hd Hpe) in H0. now injection H0 as <-.
Qed.

Lemma derive_rowwise (cfg : Config) (df : DataFrame) :
  prepare_reads cfg (columns df) ->
  derive cfg df
  = Ok (mkFrame (derived_columns (columns df)) (List.map (derive_row cfg) (rows df))).
Proof.
  intros R. unfold derive. rewrite (prepare_rowwise cfg df R). rewrite bind_Ok.
  rewrite pegy_step_rowwise; simpl columns; unfold prepared_columns;
    [| label_in | destruct R as (_ & _ & R); label_in | label_in].
  simpl rows. rewrite map_map. reflexivity.
Qed.

Lemma derive_Ok_inv (cfg : Config) (df df' : DataFrame) :
  derive cfg df = Ok df' ->
  prepare_reads cfg (columns df) /\
  df' = mkFrame (derived_columns (columns df)) (List.map (derive_row cfg) (rows df)).
Proof.
  intros H. pose proof H as H0. unfold derive in H.
  apply bind_Ok_inv in H as (pr & Hpr & _).
  apply prepare_Ok_inv in Hpr as [R _].
  split; [exact R|].
  rewrite (derive_rowwise cfg df R) in H0. now injection H0 as <-.
Qed.

End ScreenFacts.

(* ===================================================================== *)
(** * Properties of the ranking order and of the stable sort *)
(* ===================================================================== *)

Module SortFacts.
Import Frame Rowwise.

Section WeakOrderFacts.
Context {A : Type} (cmp : A -> A -> comparison) `{!WeakOrder cmp}.

Lemma cmp_lt_le_trans (x y z : A) : cmp x y = Lt -> cmp y z <> Gt -> cmp x z = Lt.
Proof.
  intros Hxy Hyz.
  assert (Hxz : cmp x z <> Gt) by (apply (cmp_le_trans x y z); congruence).
  destruct (cmp x z) eqn:E; [|reflexivity|congruence].
  exfalso. apply (cmp_le_trans y z x Hyz).
  - rewrite (cmp_opp x z), E. discriminate.
  - rewrite (cmp_opp x y), Hxy. reflexivity.
Qed.

Lemma cmp_le_lt_trans (x y z : A) : cmp x y <> Gt -> cmp y z = Lt -> cmp x z = Lt.
Proof.
  intros Hxy Hyz.
  assert (Hxz : cmp x z <> Gt) by (apply (cmp_le_trans x y z); congruence).
  destruct (cmp x z) eqn:E; [|reflexivity|congruence].
  exfalso. apply (cmp_le_trans z x y).
  - rewrite (cmp_opp x z), E. discriminate.
  - exact Hxy.
  - rewrite (cmp_opp y z), Hyz. reflexivity.
Qed.

Lemma cmp_eq_trans (x y z : A) : cmp x y = Eq -> cmp y z = Eq -> cmp x z = Eq.
Proof.
  intros Hxy Hyz.
  assert (Hxz : cmp x z <> Gt) by (apply (cmp_le_trans x y z); congruence).
  assert (Hzx : cmp z x <> Gt).
  { apply (cmp_le_trans z y x).
    - rewrite (cmp_opp y z), Hyz. discriminate.
    - rewrite (cmp_opp x y), Hxy. discriminate. }
  rewrite (cmp_opp x z) in Hzx.
  destruct (cmp x z); simpl in Hzx; congruence.
Qed.
End WeakOrderFacts.

#[export] Instance num_compare_order : WeakOrder num_compare.
Proof.
  split.
  - intros [s|x|] [t|y|]; simpl; try reflexivity.
    symmetry. apply Qcompare_antisym.
  - intros [s|x|] [t|y|] [u|z|]; simpl; try congruence.
    rewrite <- !Qle_alt. apply Qle_trans.
Qed.

Ltac string_order_absurd :=
  exfalso; unfold String_as_OT.eq in *; subst;
  match goal with
  | H : String_as_OT.lt ?a ?a |- _ => exact (StrictOrder_Irreflexive a H)
  | H1 : String_as_OT.lt ?a ?b, H2 : String_as_OT.lt ?b ?a |- _ =>
      exact (StrictOrder_Irreflexive a (StrictOrder_Transitive a b a H1 H2))
  | H1 : String_as_OT.lt ?a ?b, H2 : String_as_OT.lt ?b ?c, H3 : String_as_OT.lt ?c ?a |- _ =>
      exact (StrictOrder_Irreflexive a
               (StrictOrder_Transitive a b a H1 (StrictOrder_Transitive b c a H2 H3)))
  end.

Lemma string_compare_opp (s t : string) :
  String_as_OT.compare t s = CompOpp (String_as_OT.compare s t).
Proof.
  destruct (String_as_OT.compare_spec s t);
    destruct (String_as_OT.compare_spec t s); simpl;
    try reflexivity; string_order_absurd.
Qed.

Lemma string_compare_le_trans (s t u : string) :
  String_as_OT.compare s t <> Gt -> String_as_OT.compare t u <> Gt ->
  String_as_OT.compare s u <> Gt.
Proof.
  destruct (String_as_OT.compare_spec s t);
    destruct (String_as_OT.compare_spec t u);
    destruct (String_as_OT.compare_spec s u);
    try congruence; intros _ _ _; string_order_absurd.
Qed.

#[export] Instance text_compare_order : WeakOrder text_compare.
Proof.
  split.
  - intros [s|x|] [t|y|]; simpl; try reflexivity. apply string_compare_opp.
  - intros [s|x|] [t|y|] [u|z|]; simpl; try congruence.
    apply string_compare_le_trans.
Qed.

(** ** The order on the two sort keys *)

Section KeysOrder.
Variables k1 k2 : string.

Lemma keys_leb_total (r s : gmap string cell) :
  keys_leb k1 k2 r s = false -> keys_leb k1 k2 s r = true.
Proof.
  unfold keys_leb.
  rewrite (cmp_opp (cmp := num_compare) (at_col k1 r) (at_col k1 s)).
  rewrite (cmp_opp (cmp := text_compare) (at_col k2 r) (at_col k2 s)).
  destruct (num_compare (at_col k1 r) (at_col k1 s)); simpl; try congruence.
  destruct (text_compare (at_col k2 r) (at_col k2 s)); simpl; congruence.
Qed.

Lemma keys_leb_trans (r s t : gmap string cell) :
  keys_leb k1 k2 r s = true -> keys_leb k1 k2 s t = true -> keys_leb k1 k2 r t = true.
Proof.
  unfold keys_leb. intros Hrs Hst.
  destruct (num_compare (at_col k1 r) (at_col k1 s)) eqn:E1; [| |discriminate];
    destruct (num_compare (at_col k1 s) (at_col k1 t)) eqn:E2; try discriminate.
  - rewrite (cmp_eq_trans num_compare _ _ _ E1 E2).
    destruct (text_compare (at_col k2 r) (at_col k2 s)) eqn:F1; try discriminate;
      destruct (text_compare (at_col k2 s) (at_col k2 t)) eqn:F2; try discriminate;
      destruct (text_compare (at_col k2 r) (at_col k2 t)) eqn:F3; try reflexivity;
      exfalso;
      apply (cmp_le_trans (cmp := text_compare) (at_col k2 r) (at_col k2 s) (at_col k2 t));
      congruence.
  - rewrite (cmp_le_lt_trans num_compare _ _ _ ltac:(rewrite E1; discriminate) E2).
    reflexivity.
  - rewrite (cmp_lt_le_trans num_compare _ _ _ E1 ltac:(rewrite E2; discriminate)).
    reflexivity.
  - rewrite (cmp_lt_le_trans num_compare _ _ _ E1 ltac:(rewrite E2; discriminate)).
    reflexivity.
Qed.
End KeysOrder.

(** The comparison the code sorts by is the order of the design
    document. *)
Lemma keys_leb_ranks_before (r s : gmap string cell) :
  keys_leb "PEGY" "Ticker" r s = true <-> ranks_before r s.
Proof.
  unfold keys_leb, ranks_before.
  destruct (at_col "PEGY" r) as [a|x|], (at_col "PEGY" s) as [b|y|]; simpl;
    try (destruct (text_compare (at_col "Ticker" r) (at_col "Ticker" s));
         split; congruence);
    try (split; [tauto | reflexivity]);
    try (split; [discriminate | tauto]).
  destruct (Qcompare_spec x y) as [E|L|G].
  - destruct (text_compare (at_col "Ticker" r) (at_col "Ticker" s)); split;
      try (intros _; right; split; [exact E | discriminate]);
      try reflexivity; try discriminate.
    intros [L|[_ H]]; [|congruence].
    exfalso. rewrite E in L. now apply (Qlt_irrefl y).
  - split; [now left | reflexivity].
  - split; [discriminate|]. intros [L|[E _]]; exfalso.
    + apply (Qlt_irrefl x). now apply (Qlt_trans x y x).
    + rewrite E in G. now apply (Qlt_irrefl y).
Qed.

(** ** The stable sort *)

Section StableSort.
Context {A : Type} (leb : A -> A -> bool).

Lemma insert_by_perm (x : A) (l : list A) : Permutation (x :: l) (insert_by leb x l).
Proof.
  induction l as [|y t IH]; simpl; [reflexivity|].
  destruct (leb x y); [reflexivity|].
  rewrite perm_swap. now apply perm_skip.
Qed.

Lemma stable_sort_perm (l : list A) : Permutation l (stable_sort leb l).
Proof.
  induction l as [|x t IH]; simpl; [reflexivity|].
  rewrite <- insert_by_perm. now apply perm_skip.
Qed.

Hypothesis leb_total : forall x y, leb x y = false -> leb y x = true.
Hypothesis leb_trans : forall x y z, leb x y = true -> leb y z = true -> leb x z = true.

Lemma insert_by_sorted (x : A) (l : list A) :
  StronglySorted (fun a b => leb a b = true) l ->
  StronglySorted (fun a b => leb a b = true) (insert_by leb x l).
Proof.
  induction l as [|y t IH]; intros Hs; simpl.
  - constructor; constructor.
  - inversion Hs as [|y' t' Ht Hy]; subst.
    destruct (leb x y) eqn:E.
    + constructor; [exact Hs|]. constructor; [exact E|].
      eapply List.Forall_impl; [|exact Hy]. intros a Ha. now apply (leb_trans x y a).
    + constructor; [now apply IH|].
      apply (Permutation_Forall (insert_by_perm x t)).
      constructor; [now apply leb_total | exact Hy].
Qed.

Lemma stable_sort_sorted (l : list A) :
  StronglySorted (fun a b => leb a b = true) (stable_sort leb l).
Proof.
  induction l as [|x t IH]; simpl; [constructor|].
  now apply insert_by_sorted.
Qed.
End StableSort.

End SortFacts.

(* ===================================================================== *)
(** * What the derivation writes into a row *)
(* ===================================================================== *)

Module RowFacts.
Import Frame Screen Rowwise FrameFacts.

Ltac at_col_simpl :=
  repeat first
    [ rewrite at_col_insert
    | rewrite at_col_insert_ne by first [discriminate | assumption | congruence] ].

Lemma growth_used_insert_pe (cfg : Config) (v : cell) (r : gmap string cell) :
  growth_used cfg (<["PE Used" := v]> r) = growth_used cfg r.
Proof. unfold growth_used. destruct (growth_source cfg); now at_col_simpl. Qed.

Lemma prepare_row_growth (cfg : Config) (r : gmap string cell) :
  at_col "Growth % Used" (prepare_row cfg r) = clip_cell 0 (growth_used cfg r).
Proof.
  unfold prepare_row. cbv zeta. at_col_simpl. now rewrite growth_used_insert_pe.
Qed.

Lemma prepare_row_dividend (cfg : Config) (r : gmap string cell) :
  at_col "Dividend %" (prepare_row cfg r) = clip_cell 0 (at_col "Dividend %" r).
Proof. unfold prepare_row. cbv zeta. now at_col_simpl. Qed.

Lemma prepare_row_pe (cfg : Config) (r : gmap string cell) :
  at_col "PE Used" (prepare_row cfg r) = at_col (pe_col cfg) r.
Proof. unfold prepare_row. cbv zeta. now at_col_simpl. Qed.

Lemma prepare_row_other (cfg : Config) (r : gmap string cell) (c : string) :
  c <> "PE Used" -> c <> "Growth % Used" -> c <> "Dividend %" ->
  at_col c (prepare_row cfg r) = at_col c r.
Proof. intros H1 H2 H3. unfold prepare_row. cbv zeta. now at_col_simpl. Qed.

Lemma pegy_row_pegy (r : gmap string cell) : at_col "PEGY" (pegy_row r) = pegy_of r.
Proof. unfold pegy_row. now at_col_simpl. Qed.

Lemma pegy_row_other (r : gmap string cell) (c : string) :
  c <> "PEGY" -> at_col c (pegy_row r) = at_col c r.
Proof. intros H. unfold pegy_row. now at_col_simpl. Qed.

(** The PEGY of a row depends on its three operand cells only. *)
Lemma pegy_of_pegy_row (r : gmap string cell) : pegy_of (pegy_row r) = pegy_of r.
Proof. unfold pegy_of. now rewrite !pegy_row_other by discriminate. Qed.

(** Clamping leaves no negative number. *)
Lemma clip_cell_nonneg (x : cell) (q : Q) : clip_cell 0 x = Num q -> (0 <= q)%Q.
Proof.
  destruct x as [s|y|]; simpl; try discriminate.
  destruct (Qle_bool 0 y) eqn:E; intros [= <-].
  - now apply Qle_bool_iff.
  - apply Qle_refl.
Qed.

Lemma clip_cell_NaN (x : cell) : clip_cell 0 x = NaN <-> x = NaN.
Proof.
  destruct x as [s|y|]; simpl; try (split; congruence).
  destruct (Qle_bool 0 y); split; discriminate.
Qed.

Lemma growth_used_number (cfg : Config) (r : gmap string cell) :
  (forall s, at_col "Analyst 5y Growth %" r <> Str s) ->
  exists g, growth_used cfg r = Num g.
Proof.
  intros H. unfold growth_used. destruct (growth_source cfg); [|eauto].
  destruct (at_col "Analyst 5y Growth %" r) as [s|q|]; simpl; eauto.
  now destruct (H s).
Qed.

Lemma clip_cell_number (q : Q) : exists q', clip_cell 0 (Num q) = Num q'.
Proof. simpl. destruct (Qle_bool 0 q); eauto. Qed.

(** The PEGY of a row whose three operands are numbers. *)
Lemma pegy_of_numbers (r : gmap string cell) (pe g d : Q) :
  at_col "PE Used" r = Num pe -> at_col "Growth % Used" r = Num g ->
  at_col "Dividend %" r = Num d ->
  pegy_of r = if Qeq_bool (g + d) 0 then NaN else Num (pe / (g + d)).
Proof.
  intros Hpe Hg Hd. unfold pegy_of. rewrite Hpe, Hg, Hd. simpl.
  destruct (Qeq_bool (g + d) 0); reflexivity.
Qed.

Lemma pegy_of_absent_pe (r : gmap string cell) :
  absent (at_col "PE Used" r) -> pegy_of r = NaN.
Proof.
  intros H. unfold pegy_of.
  destruct (at_col "PE Used" r) as [s|q|]; try reflexivity.
  now destruct (H q).
Qed.

End RowFacts.

(* ===================================================================== *)
(** * Properties of the fetcher *)
(* ===================================================================== *)

Module FetcherFacts.
Import Frame Fetcher FrameFacts.

Lemma lookup_map {X Y : Type} (f : X -> Y) (l : list X) (i : nat) :
  List.map f l !! i = f <$> (l !! i).
Proof.
  revert i. induction l as [|x t IH]; intros [|i]; simpl; try reflexivity. apply IH.
Qed.

Lemma fetched_dicts_lookup (p : Provider) (tickers : list string) (i : nat) (t : string) :
  tickers !! i = Some t -> fetched_dicts p tickers !! i = Some (fetch_or_error p i t).
Proof. intros H. unfold fetched_dicts. now rewrite list_lookup_imap, H. Qed.

Lemma fetched_dicts_lookup_inv (p : Provider) (tickers : list string) (i : nat) (d : dict) :
  fetched_dicts p tickers !! i = Some d ->
  exists t, tickers !! i = Some t /\ d = fetch_or_error p i t.
Proof.
  unfold fetched_dicts. rewrite list_lookup_imap.
  destruct (tickers !! i) as [t|]; simpl; [|discriminate].
  intros [= <-]. now exists t.
Qed.

Lemma batch_fetch_lookup (p : Provider) (tickers : list string) (i : nat) (t : string) :
  tickers !! i = Some t ->
  rows (batch_fetch p tickers) !! i
  = Some (row_of (columns (batch_fetch p tickers)) (fetch_or_error p i t)).
Proof.
  intros H. unfold batch_fetch, from_dicts. simpl.
  now rewrite lookup_map, (fetched_dicts_lookup p tickers i t H).
Qed.

Lemma batch_fetch_lookup_inv (p : Provider) (tickers : list string) (i : nat)
    (r : gmap string cell) :
  rows (batch_fetch p tickers) !! i = Some r ->
  exists t, tickers !! i = Some t /\
            r = row_of (columns (batch_fetch p tickers)) (fetch_or_error p i t).
Proof.
  unfold batch_fetch, from_dicts. cbn [rows columns]. rewrite lookup_map.
  destruct (fetched_dicts p tickers !! i) as [d|] eqn:E; simpl; [|discriminate].
  apply fetched_dicts_lookup_inv in E as (t & Ht & ->).
  intros [= <-]. now exists t.
Qed.

Lemma fetch_or_error_keys (p : Provider) (n : nat) (t : string) :
  (exists msg, fetch_summary p n t = Raised msg /\ fetch_or_error p n t = error_dict t msg) \/
  (exists i a, fetch_summary p n t = Returned (summary_of i a t) /\
               fetch_or_error p n t = summary_of i a t).
Proof.
  unfold fetch_or_error, fetch_summary.
  destruct (lookup_info p n t) as [i| |msg].
  - right. now exists i, (lookup_analysis p n t).
  - right. now exists empty_info, (lookup_analysis p n t).
  - left. now exists msg.
Qed.

Lemma ticker_in_fetched_keys (p : Provider) (n : nat) (t : string) :
  "Ticker" ∈ dict_keys (fetch_or_error p n t).
Proof.
  destruct (fetch_or_error_keys p n t) as [(msg & _ & ->)|(i & a & _ & ->)]; left.
Qed.

Lemma fetched_label_in_columns (p : Provider) (tickers : list string) (i : nat)
    (t c : string) :
  tickers !! i = Some t -> c ∈ dict_keys (fetch_or_error p i t) ->
  c ∈ columns (batch_fetch p tickers).
Proof.
  intros Hi Hc. unfold batch_fetch, from_dicts. simpl.
  apply elem_of_union_labels. exists (fetch_or_error p i t). split; [|exact Hc].
  apply list_elem_of_lookup. exists i. now apply fetched_dicts_lookup.
Qed.

(** The labels of a fetched table are labels of the dictionaries. *)
Lemma columns_batch_fetch (p : Provider) (tickers : list string) (c : string) :
  c ∈ columns (batch_fetch p tickers) -> c ∈ summary_keys \/ c = "Error".
Proof.
  unfold batch_fetch, from_dicts. simpl. intros H.
  apply elem_of_union_labels in H as (d & Hd & Hc).
  apply list_elem_of_lookup in Hd as (i & Hd).
  apply fetched_dicts_lookup_inv in Hd as (t & _ & ->).
  destruct (fetch_or_error_keys p i t) as [(msg & _ & E)|(inf & a & _ & E)];
    rewrite E in Hc; simpl in Hc.
  - apply elem_of_cons in Hc as [->|Hc]; [left; left|].
    apply list_elem_of_singleton in Hc. now right.
  - now left.
Qed.

(** The cells of the row of a failed ticker. *)
Lemma error_row_cells (cols : list string) (t msg c : string) :
  c ∈ cols ->
  at_col c (row_of cols (error_dict t msg))
  = if String.eqb c "Ticker" then Str t
    else if String.eqb c "Error" then Str msg else NaN.
Proof.
  intros Hc. rewrite at_col_row_of by exact Hc.
  unfold at_col, error_dict. simpl.
  destruct (String.eqb_spec c "Ticker") as [->|H1].
  - now rewrite lookup_insert_eq.
  - rewrite lookup_insert_ne by congruence.
    destruct (String.eqb_spec c "Error") as [->|H2].
    + now rewrite lookup_insert_eq.
    + rewrite lookup_insert_ne by congruence. now rewrite lookup_empty.
Qed.

Lemma error_row_missing (cols : list string) (t msg c : string) :
  c <> "Ticker" -> c <> "Error" -> at_col c (row_of cols (error_dict t msg)) = NaN.
Proof.
  intros H1 H2. apply at_col_row_of_missing. simpl.
  rewrite !elem_of_cons, elem_of_nil. tauto.
Qed.

(** The numeric cells of the row of a fetched ticker: the dividend is a
    number; a P/E and the analyst growth are numbers or missing. *)
Lemma summary_row_cells (cols : list string) (i : Info) (a : AnalysisLookup) (t : string) :
  "Dividend %" ∈ cols ->
  at_col "Dividend %" (row_of cols (summary_of i a t)) = Num (dividend_pct i).
Proof.
  intros Hc. rewrite at_col_row_of by exact Hc. reflexivity.
Qed.

Lemma get_or_nan_not_text (o : option Q) (s : string) : get_or_nan o <> Str s.
Proof. destruct o; discriminate. Qed.

Lemma analyst_growth_not_text (a : AnalysisLookup) (s : string) : analyst_growth a <> Str s.
Proof.
  destruct a as [| |[col|]]; simpl; try discriminate.
  destruct (dropna col); discriminate.
Qed.

Lemma summary_of_lookup (i : Info) (a : AnalysisLookup) (t c : string) :
  at_col c (list_to_map (summary_of i a t))
  = if String.eqb c "Ticker" then Str t
    else if String.eqb c "Name" then Str (name_of i t)
    else if String.eqb c "Price" then price_of i
    else if String.eqb c "Sector" then Str (sector_of i)
    else if String.eqb c "Trailing PE" then get_or_nan (trailingPE i)
    else if String.eqb c "Forward PE" then get_or_nan (forwardPE i)
    else if String.eqb c "Dividend %" then Num (dividend_pct i)
    else if String.eqb c "Analyst 5y Growth %" then analyst_growth a
    else NaN.
Proof.
  unfold at_col, summary_of. simpl.
  repeat (match goal with
          | |- context [String.eqb c ?k] =>
              destruct (String.eqb_spec c k) as [->|?];
              [now rewrite lookup_insert_eq | rewrite lookup_insert_ne by congruence]
          end).
  now rewrite lookup_empty.
Qed.

End FetcherFacts.

(* ===================================================================== *)
(** * Filtering and ranking, row by row *)
(* ===================================================================== *)

Module PipelineFacts.
Import Frame Screen Rowwise FrameFacts ScreenFacts SortFacts.

Lemma filter_filter {X : Type} (f g : X -> bool) (l : list X) :
  List.filter g (List.filter f l) = List.filter (fun x => f x && g x) l.
Proof.
  induction l as [|x t IH]; simpl; [reflexivity|].
  destruct (f x); simpl; [destruct (g x); now rewrite IH | exact IH].
Qed.

Lemma filter_all {X : Type} (l : list X) : List.filter (fun _ => true) l = l.
Proof. induction l as [|x t IH]; simpl; [reflexivity | now rewrite IH]. Qed.

Lemma apply_filters_rowwise (cfg : Config) (df : DataFrame) :
  ((0 < min_div_yield cfg)%Q -> "Dividend %" ∈ columns df) ->
  ((0 < max_pegy cfg)%Q -> "PEGY" ∈ columns df) ->
  apply_filters cfg df
  = Ok (mkFrame (columns df) (List.filter (keep_row cfg) (rows df))).
Proof.
  intros HD HP. rewrite (frame_eta df) at 1.
  unfold apply_filters, keep_row. cbv zeta.
  destruct (Qlt_le_dec 0 (min_div_yield cfg)) as [Hmin|Hmin];
    destruct (Qlt_le_dec 0 (max_pegy cfg)) as [Hmax|Hmax].
  - rewrite (getitem_map _ _ _ "Dividend %") by auto. rewrite bind_Ok.
    rewrite map_map, select_map, bind_Ok.
    rewrite (getitem_map _ _ _ "PEGY") by auto. rewrite bind_Ok.
    rewrite map_map, select_map. rewrite filter_filter, map_id. reflexivity.
  - rewrite (getitem_map _ _ _ "Dividend %") by auto. rewrite bind_Ok.
    rewrite map_map, select_map, bind_Ok. rewrite map_id.
    f_equal. f_equal. apply filter_ext. intros r. now rewrite andb_true_r.
  - rewrite bind_Ok.
    rewrite (getitem_map _ _ _ "PEGY") by auto. rewrite bind_Ok.
    rewrite map_map, select_map. rewrite map_id. reflexivity.
  - rewrite bind_Ok. rewrite map_id. simpl. now rewrite filter_all.
Qed.

Lemma columns_select (df : DataFrame) (mask : list bool) :
  columns (select df mask) = columns df.
Proof. reflexivity. Qed.

Lemma apply_filters_Ok_inv (cfg : Config) (df filtered : DataFrame) :
  apply_filters cfg df = Ok filtered ->
  filtered = mkFrame (columns df) (List.filter (keep_row cfg) (rows df)).
Proof.
  intros H. pose proof H as H0. unfold apply_filters in H. cbv zeta in H.
  apply bind_Ok_inv in H as (f1 & Hf1 & H).
  assert (HD : (0 < min_div_yield cfg)%Q -> "Dividend %" ∈ columns df).
  { intros Hmin. destruct (Qlt_le_dec 0 (min_div_yield cfg)) as [_|Hle].
    - apply bind_Ok_inv in Hf1 as (d & Hd & _). now apply getitem_Ok_inv in Hd as [Hd _].
    - exfalso. now apply (Qlt_not_le _ _ Hmin). }
  assert (Hcols : columns f1 = columns df).
  { destruct (Qlt_le_dec 0 (min_div_yield cfg)).
    - apply bind_Ok_inv in Hf1 as (d & _ & Hf1). now injection Hf1 as <-.
    - now injection Hf1 as <-. }
  assert (HP : (0 < max_pegy cfg)%Q -> "PEGY" ∈ columns df).
  { intros Hmax. destruct (Qlt_le_dec 0 (max_pegy cfg)) as [_|Hle].
    - apply bind_Ok_inv in H as (g & Hg & _). apply getitem_Ok_inv in Hg as [Hg _].
      now rewrite Hcols in Hg.
    - exfalso. now apply (Qlt_not_le _ _ Hmax). }
  rewrite (apply_filters_rowwise cfg df HD HP) in H0. now injection H0 as <-.
Qed.

Lemma rank_rowwise (df : DataFrame) :
  "PEGY" ∈ columns df -> "Ticker" ∈ columns df ->
  rank df = Ok (mkFrame (columns df) (stable_sort (keys_leb "PEGY" "Ticker") (rows df))).
Proof.
  intros HP HT. unfold rank, sort_values, getitem.
  destruct (decide ("PEGY" ∈ columns df)); [|contradiction].
  destruct (decide ("Ticker" ∈ columns df)); [|contradiction].
  reflexivity.
Qed.

Lemma rank_Ok_inv (df out : DataFrame) :
  rank df = Ok out ->
  "PEGY" ∈ columns df /\ "Ticker" ∈ columns df /\
  out = mkFrame (columns df) (stable_sort (keys_leb "PEGY" "Ticker") (rows df)).
Proof.
  unfold rank, sort_values, getitem.
  destruct (decide ("PEGY" ∈ columns df)); [|discriminate].
  destruct (decide ("Ticker" ∈ columns df)); [|discriminate].
  intros [= <-]. auto.
Qed.

(** In a list sorted for a relation, an earlier element is related to
    every later one. *)
Lemma sorted_lookup {X : Type} (R : X -> X -> Prop) (l : list X) (i j : nat) (x y : X) :
  StronglySorted R l -> (i < j)%nat -> l !! i = Some x -> l !! j = Some y -> R x y.
Proof.
  intros Hs. revert i j. induction Hs as [|a t Ht IH Ha]; intros i j Hij Hi Hj.
  - discriminate.
  - destruct j as [|j]; [lia|]. simpl in Hj. destruct i as [|i].
    + injection Hi as <-. rewrite List.Forall_forall in Ha. apply Ha.
      apply list_elem_of_In, list_elem_of_lookup. now exists j.
    + simpl in Hi. apply (IH i j); [lia | exact Hi | exact Hj].
Qed.

Lemma sorted_weaken {X : Type} (R R' : X -> X -> Prop) (l : list X) :
  (forall x y, R x y -> R' x y) -> StronglySorted R l -> StronglySorted R' l.
Proof.
  intros HR Hs. induction Hs as [|a t Ht IH Ha]; constructor; [exact IH|].
  eapply List.Forall_impl; [|exact Ha]. intros y. apply HR.
Qed.

Lemma ranked_rows_sorted (l : list (gmap string cell)) :
  StronglySorted ranks_before (stable_sort (keys_leb "PEGY" "Ticker") l).
Proof.
  apply (sorted_weaken (fun r s => keys_leb "PEGY" "Ticker" r s = true)).
  - intros r s H. now apply keys_leb_ranks_before.
  - apply stable_sort_sorted.
    + apply keys_leb_total.
    + apply keys_leb_trans.
Qed.

(** A row without a PEGY can only stand before rows without a PEGY. *)
Lemma ranks_before_absent (r s : gmap string cell) :
  ranks_before r s -> absent (at_col "PEGY" r) -> absent (at_col "PEGY" s).
Proof.
  unfold ranks_before, absent. intros H Hr q Hs. rewrite Hs in H.
  destruct (at_col "PEGY" r) as [a|x|]; try contradiction.
  now destruct (Hr x).
Qed.

Lemma keep_row_passes (cfg : Config) (r : gmap string cell) :
  (0 <= min_div_yield cfg)%Q -> (0 <= max_pegy cfg)%Q ->
  keep_row cfg r = true <-> passes_filters cfg r.
Proof.
  intros Hmin Hmax. unfold keep_row, passes_filters.
  rewrite andb_true_iff.
  assert (G : forall (m : Q), (0 <= m)%Q ->
            forall (test : bool) (P : Prop), (test = true <-> P) ->
            ((if Qlt_le_dec 0 m then test else true) = true <-> (m == 0)%Q \/ P)).
  { intros m Hm test P HP. destruct (Qlt_le_dec 0 m) as [Hlt|Hle].
    - rewrite HP. split; [now right|]. intros [E|H]; [|exact H].
      exfalso. rewrite E in Hlt. now apply (Qlt_irrefl 0).
    - split; [|reflexivity]. intros _. left. now apply Qle_antisym. }
  apply Morphisms_Prop.and_iff_morphism; apply G; try assumption.
  - destruct (at_col "Dividend %" r) as [s|d|]; simpl.
    + split; [discriminate | intros (d & E & _); discriminate].
    + rewrite Qle_bool_iff. split; [intros H; now exists d|].
      now intros (d' & [= <-] & H).
    + split; [discriminate | intros (d & E & _); discriminate].
  - destruct (at_col "PEGY" r) as [s|x|]; simpl.
    + split; [discriminate | intros (d & E & _); discriminate].
    + rewrite Qle_bool_iff. split; [intros H; now exists x|].
      now intros (d' & [= <-] & H).
    + split; [discriminate | intros (d & E & _); discriminate].
Qed.

Lemma keep_row_absent_pegy (cfg : Config) (r : gmap string cell) :
  (0 < max_pegy cfg)%Q -> absent (at_col "PEGY" r) -> keep_row cfg r = false.
Proof.
  intros Hmax Ha. unfold keep_row.
  destruct (Qlt_le_dec 0 (max_pegy cfg)) as [_|Hle].
  - destruct (at_col "PEGY" r) as [s|x|]; simpl; try apply andb_false_r.
    now destruct (Ha x).
  - exfalso. now apply (Qlt_not_le _ _ Hmax).
Qed.

Lemma keep_row_absent_dividend (cfg : Config) (r : gmap string cell) :
  (0 < min_div_yield cfg)%Q -> absent (at_col "Dividend %" r) -> keep_row cfg r = false.
Proof.
  intros Hmin Ha. unfold keep_row.
  destruct (Qlt_le_dec 0 (min_div_yield cfg)) as [_|Hle].
  - destruct (at_col "Dividend %" r) as [s|x|]; simpl; try reflexivity.
    now destruct (Ha x).
  - exfalso. now apply (Qlt_not_le _ _ Hmin).
Qed.

End PipelineFacts.

(* ===================================================================== *)
(** * The statements of the design document, checked against the code *)
(* ===================================================================== *)

Module Pipeline.
Import Frame Fetcher Screen Rowwise.
Import FrameFacts ScreenFacts SortFacts RowFacts FetcherFacts PipelineFacts.

Lemma run_screen_Ok_inv {rnd : Q -> Q} (cfg : Config) (df : DataFrame) (o : Output) :
  run_screen rnd cfg df = Ok o ->
  exists derived filtered table,
    derive cfg df = Ok derived /\
    apply_filters cfg derived = Ok filtered /\
    rank filtered = Ok (ranked o) /\
    present rnd (ranked o) = Ok table /\
    o = mkOutput (ranked o) table (export (ranked o)).
Proof.
  unfold run_screen. intros H.
  apply bind_Ok_inv in H as (derived & Hd & H).
  apply bind_Ok_inv in H as (filtered & Hf & H).
  apply bind_Ok_inv in H as (out & Hr & H).
  apply bind_Ok_inv in H as (table & Hp & H).
  injection H as <-. simpl. now exists derived, filtered, table.
Qed.

Lemma filter_sublist {X : Type} (f : X -> bool) (l : list X) :
  sublist (List.filter f l) l.
Proof.
  induction l as [|x t IH]; simpl; [constructor|].
  destruct (f x); now constructor.
Qed.

Lemma elem_of_filter {X : Type} (f : X -> bool) (l : list X) (x : X) :
  x ∈ List.filter f l <-> x ∈ l /\ f x = true.
Proof. rewrite !list_elem_of_In. apply filter_In. Qed.

(** The ranked table of a run is a selection of the derived rows, put in
    ranking order. *)
Lemma ranked_of_derived {rnd : Q -> Q} (cfg : Config) (df : DataFrame) (o : Output) :
  run_screen rnd cfg df = Ok o ->
  exists derived,
    derive cfg df = Ok derived /\
    columns (ranked o) = columns derived /\
    Permutation (List.filter (keep_row cfg) (rows derived)) (rows (ranked o)) /\
    StronglySorted ranks_before (rows (ranked o)).
Proof.
  intros H. apply run_screen_Ok_inv in H as (derived & filtered & table & Hd & Hf & Hr & _).
  exists derived. split; [exact Hd|].
  apply apply_filters_Ok_inv in Hf. subst filtered.
  apply rank_Ok_inv in Hr as (_ & _ & ->). simpl.
  split; [reflexivity|]. split; [apply stable_sort_perm | apply ranked_rows_sorted].
Qed.

(** C6: for every table with the two filtered columns and every
    configuration with non-negative thresholds, the filter step keeps, in
    their order and as often as they occur, exactly the rows whose
    dividend is at least the minimum (a test skipped when the minimum is
    0) and whose PEGY is at most the maximum (a test skipped when the
    maximum is 0): its rows are the rows of the table filtered by that
    test.  A row without a PEGY is dropped whenever the maximum is
    positive. *)
Theorem filters_keep_exactly (cfg : Config) (df : DataFrame)
    (Hmin : (0 <= min_div_yield cfg)%Q) (Hmax : (0 <= max_pegy cfg)%Q)
    (HD : "Dividend %" ∈ columns df) (HP : "PEGY" ∈ columns df) :
  exists filtered,
    apply_filters cfg df = Ok filtered /\
    columns filtered = columns df /\
    (exists keep : gmap string cell -> bool,
       (forall r, keep r = true <-> passes_filters cfg r) /\
       rows filtered = List.filter keep (rows df)) /\
    sublist (rows filtered) (rows df) /\
    (forall r, r ∈ rows filtered <-> r ∈ rows df /\ passes_filters cfg r) /\
    (forall r, (0 < max_pegy cfg)%Q -> absent (at_col "PEGY" r) -> r ∉ rows filtered).
Proof.
  eexists. split; [apply apply_filters_rowwise; auto|]. simpl.
  split; [reflexivity|]. split.
  { exists (keep_row cfg). split; [|reflexivity].
    intros r. now apply keep_row_passes. }
  split; [apply filter_sublist|]. split.
  - intros r. rewrite elem_of_filter. now rewrite keep_row_passes.
  - intros r Hpos Ha Hin. apply elem_of_filter in Hin as [_ Hk].
    rewrite (keep_row_absent_pegy cfg r Hpos Ha) in Hk. discriminate.
Qed.

Lemma filters_keep_exactly_witness :
  ((0 <= min_div_yield Samples.pegy_only_config)%Q /\
   (0 <= max_pegy Samples.pegy_only_config)%Q /\
   "Dividend %" ∈ columns Samples.scored /\ "PEGY" ∈ columns Samples.scored) /\
  exists filtered,
    apply_filters Samples.pegy_only_config Samples.scored = Ok filtered /\
    columns filtered = columns Samples.scored /\
    (exists keep : gmap string cell -> bool,
       (forall r, keep r = true <-> passes_filters Samples.pegy_only_config r) /\
       rows filtered = List.filter keep (rows Samples.scored)) /\
    sublist (rows filtered) (rows Samples.scored) /\
    (forall r, r ∈ rows filtered <->
               r ∈ rows Samples.scored /\ passes_filters Samples.pegy_only_config r) /\
    (forall r, (0 < max_pegy Samples.pegy_only_config)%Q ->
               absent (at_col "PEGY" r) -> r ∉ rows filtered).
Proof.
  assert (H1 : (0 <= min_div_yield Samples.pegy_only_config)%Q) by (vm_compute; discriminate).
  assert (H2 : (0 <= max_pegy Samples.pegy_only_config)%Q) by (vm_compute; discriminate).
  assert (H3 : "Dividend %" ∈ columns Samples.scored)
    by (apply list_elem_of_In; simpl; tauto).
  assert (H4 : "PEGY" ∈ columns Samples.scored)
    by (apply list_elem_of_In; simpl; tauto).
  split; [auto|].
  exact (filters_keep_exactly Samples.pegy_only_config Samples.scored H1 H2 H3 H4).
Defined.

(** The filtering example of the design document: with PEGY 0.8, 1.2 and
    missing and a maximum of 1, exactly the first row survives. *)
Example filters_example :
  apply_filters Samples.pegy_only_config Samples.scored
  = Ok (mkFrame ["Ticker"; "Dividend %"; "PEGY"]
          [Samples.scored_row "A" (Num 2) (Num 0.8)]).
Proof. vm_compute. reflexivity. Qed.

(** A row that passes and occurs twice is kept twice. *)
Example filters_keep_repeated_rows :
  apply_filters Samples.pegy_only_config
    (mkFrame ["Ticker"; "Dividend %"; "PEGY"]
       [Samples.scored_row "A" (Num 2) (Num 0.8); Samples.scored_row "B" (Num 1) (Num 1.2);
        Samples.scored_row "A" (Num 2) (Num 0.8)])
  = Ok (mkFrame ["Ticker"; "Dividend %"; "PEGY"]
          [Samples.scored_row "A" (Num 2) (Num 0.8);
           Samples.scored_row "A" (Num 2) (Num 0.8)]).
Proof. vm_compute. reflexivity. Qed.

(** C7: the ranking step returns the rows of its table rearranged so that
    they ascend by (PEGY, Ticker), every row without a PEGY standing after
    every row with one whatever its ticker; on the four rows (1.5, Z),
    (0.9, B), (missing, C), (0.9, A) it returns (0.9, A), (0.9, B),
    (1.5, Z), (missing, C). *)
Theorem rank_orders_by_pegy_then_ticker (df : DataFrame)
    (HP : "PEGY" ∈ columns df) (HT : "Ticker" ∈ columns df) :
  (exists out,
     rank df = Ok out /\
     columns out = columns df /\
     Permutation (rows df) (rows out) /\
     StronglySorted ranks_before (rows out) /\
     (forall i j r s, (i < j)%nat ->
        rows out !! i = Some r -> rows out !! j = Some s ->
        absent (at_col "PEGY" r) -> absent (at_col "PEGY" s))) /\
  rank Samples.unsorted = Ok Samples.sorted.
Proof.
  split; [|vm_compute; reflexivity].
  eexists. split; [now apply rank_rowwise|]. simpl.
  split; [reflexivity|]. split; [apply stable_sort_perm|].
  split; [apply ranked_rows_sorted|].
  intros i j r s Hij Hi Hj. apply ranks_before_absent.
  exact (sorted_lookup ranks_before _ i j r s (ranked_rows_sorted (rows df)) Hij Hi Hj).
Qed.

Lemma rank_orders_by_pegy_then_ticker_witness :
  ("PEGY" ∈ columns Samples.unsorted /\ "Ticker" ∈ columns Samples.unsorted) /\
  (exists out,
     rank Samples.unsorted = Ok out /\
     columns out = columns Samples.unsorted /\
     Permutation (rows Samples.unsorted) (rows out) /\
     StronglySorted ranks_before (rows out) /\
     (forall i j r s, (i < j)%nat ->
        rows out !! i = Some r -> rows out !! j = Some s ->
        absent (at_col "PEGY" r) -> absent (at_col "PEGY" s))) /\
  rank Samples.unsorted = Ok Samples.sorted.
Proof.
  assert (H1 : "PEGY" ∈ columns Samples.unsorted)
    by (apply list_elem_of_In; simpl; tauto).
  assert (H2 : "Ticker" ∈ columns Samples.unsorted)
    by (apply list_elem_of_In; simpl; tauto).
  split; [auto|].
  exact (rank_orders_by_pegy_then_ticker Samples.unsorted H1 H2).
Defined.

End Pipeline.

Module Fetching.
Import Frame Fetcher FrameFacts FetcherFacts.

(** What [price_of] returns, case by case: a current price that is
    present and not 0, else a regular market price that is present and not
    0, else nothing. *)
Lemma price_of_cases (i : Info) :
  price_of i =
    match currentPrice i with
    | Some c =>
        if Qeq_bool c 0
        then match regularMarketPrice i with
             | Some m => if Qeq_bool m 0 then NaN else Num m
             | None => NaN
             end
        else Num c
    | None =>
        match regularMarketPrice i with
        | Some m => if Qeq_bool m 0 then NaN else Num m
        | None => NaN
        end
    end.
Proof.
  unfold price_of, or_num, num_truthy.
  destruct (currentPrice i) as [c|]; [destruct (Qeq_bool c 0) eqn:Ec|]; simpl;
    try rewrite Ec; simpl; try reflexivity;
    destruct (regularMarketPrice i) as [m|]; simpl; try reflexivity;
    destruct (Qeq_bool m 0); reflexivity.
Qed.

(** C5, the code at the failing inputs: a current price that is present
    with value 0 is skipped.  With a regular market price of 60 the fetched
    price is 60, not 0; with no regular market price the fetched price is
    missing although the current price is present. *)
Theorem price_skips_zero_current_price :
  currentPrice Samples.ko_info = Some 0%Q /\
  price_of Samples.ko_info = Num 60 /\
  (exists d, fetch_summary Samples.provider 0 "KO" = Returned d /\
             at_col "Price" (list_to_map d) = Num 60) /\
  currentPrice Samples.zero_price_info = Some 0%Q /\
  price_of Samples.zero_price_info = NaN.
Proof.
  split; [reflexivity|]. split; [reflexivity|]. split.
  - eexists. split; [reflexivity|]. vm_compute. reflexivity.
  - split; reflexivity.
Qed.

(** The cells of a table row are the values of its dictionary, and
    missing where the dictionary has no entry. *)
Lemma at_col_row_of_all (cols : list string) (d : dict) (c : string) :
  (forall k, k ∈ dict_keys d -> k ∈ cols) ->
  at_col c (row_of cols d) = at_col c (list_to_map d).
Proof.
  intros Hk. destruct (decide (c ∈ cols)) as [Hc|Hc].
  - now apply at_col_row_of.
  - assert (Hd : c ∉ dict_keys d) by (intros H; now apply Hc, Hk).
    rewrite (at_col_row_of_missing cols d c Hd).
    unfold at_col. now rewrite (not_elem_of_list_to_map_1 d c Hd).
Qed.

(** C8: for every list of tickers the batch fetch returns a table with
    exactly one row per ticker, in input order.  The row at the position
    of a ticker carries that ticker; when the fetch of the ticker raised,
    it carries the message under Error and nothing else; when the fetch
    returned, it carries every value of the returned dictionary, that is
    the eight fundamentals, and nothing under Error.  This holds at every
    position, whatever the fetches at the other positions did. *)
Theorem batch_fetch_one_row_per_ticker (p : Provider) (tickers : list string)
    (i : nat) (t : string) (Hi : tickers !! i = Some t) :
  length (fetched_dicts p tickers) = length tickers /\
  length (rows (batch_fetch p tickers)) = length tickers /\
  (forall msg, fetch_summary p i t = Raised msg ->
     fetched_dicts p tickers !! i = Some (error_dict t msg) /\
     dict_keys (error_dict t msg) = ["Ticker"; "Error"]) /\
  (forall d, fetch_summary p i t = Returned d ->
     fetched_dicts p tickers !! i = Some d /\ dict_keys d = summary_keys) /\
  (exists r,
     rows (batch_fetch p tickers) !! i = Some r /\
     at_col "Ticker" r = Str t /\
     (forall msg, fetch_summary p i t = Raised msg ->
        at_col "Error" r = Str msg /\
        forall c, c <> "Ticker" -> c <> "Error" -> at_col c r = NaN) /\
     (forall d, fetch_summary p i t = Returned d ->
        (forall c, at_col c r = at_col c (list_to_map d)) /\
        at_col "Error" r = NaN /\
        exists inf,
          (lookup_info p i t = InfoDict inf \/
           (lookup_info p i t = InfoNoAttribute /\ inf = empty_info)) /\
          at_col "Name" r = Str (name_of inf t) /\
          at_col "Price" r = price_of inf /\
          at_col "Sector" r = Str (sector_of inf) /\
          at_col "Trailing PE" r = get_or_nan (trailingPE inf) /\
          at_col "Forward PE" r = get_or_nan (forwardPE inf) /\
          at_col "Dividend %" r = Num (dividend_pct inf) /\
          at_col "Analyst 5y Growth %" r = analyst_growth (lookup_analysis p i t))).
Proof.
  split; [apply length_imap|].
  split; [unfold batch_fetch, from_dicts, fetched_dicts; simpl;
          rewrite length_map; apply length_imap|].
  pose proof (fetched_dicts_lookup p tickers i t Hi) as Hl.
  assert (Hall : forall c,
            at_col c (row_of (columns (batch_fetch p tickers)) (fetch_or_error p i t))
            = at_col c (list_to_map (fetch_or_error p i t))).
  { intros c. apply at_col_row_of_all. intros k Hk.
    exact (fetched_label_in_columns p tickers i t k Hi Hk). }
  split; [|split].
  - intros msg Hm. rewrite Hl. unfold fetch_or_error. rewrite Hm. split; reflexivity.
  - intros d Hd. rewrite Hl. unfold fetch_or_error. rewrite Hd. split; [reflexivity|].
    unfold fetch_summary in Hd.
    destruct (lookup_info p i t); try discriminate; now injection Hd as <-.
  - eexists. split; [exact (batch_fetch_lookup p tickers i t Hi)|].
    split; [|split].
    + rewrite Hall.
      destruct (fetch_or_error_keys p i t) as [(msg & _ & ->)|(inf & a & _ & ->)];
        reflexivity.
    + intros msg Hm.
      assert (E : fetch_or_error p i t = error_dict t msg)
        by (unfold fetch_or_error; now rewrite Hm).
      rewrite E. split.
      * rewrite <- E, Hall, E. reflexivity.
      * intros c H1 H2. now apply error_row_missing.
    + intros d Hd.
      assert (E : fetch_or_error p i t = d) by (unfold fetch_or_error; now rewrite Hd).
      rewrite E in Hall.
      assert (Hinf : exists inf,
                (lookup_info p i t = InfoDict inf \/
                 (lookup_info p i t = InfoNoAttribute /\ inf = empty_info)) /\
                d = summary_of inf (lookup_analysis p i t) t).
      { unfold fetch_summary in Hd.
        destruct (lookup_info p i t) as [inf| |msg]; try discriminate;
          injection Hd as <-; eexists; split; eauto. }
      destruct Hinf as (inf & Hl' & Ed). rewrite E.
      split; [exact Hall|]. split; [rewrite Hall, Ed; reflexivity|].
      exists inf. split; [exact Hl'|].
      rewrite !Hall, Ed. repeat split; reflexivity.
Qed.

Lemma batch_fetch_one_row_per_ticker_witness :
  Samples.three_tickers !! 1%nat = Some "BAD" /\
  length (fetched_dicts Samples.provider Samples.three_tickers) = length Samples.three_tickers /\
  length (rows (batch_fetch Samples.provider Samples.three_tickers))
    = length Samples.three_tickers /\
  (forall msg, fetch_summary Samples.provider 1 "BAD" = Raised msg ->
     fetched_dicts Samples.provider Samples.three_tickers !! 1%nat
     = Some (error_dict "BAD" msg) /\
     dict_keys (error_dict "BAD" msg) = ["Ticker"; "Error"]) /\
  (forall d, fetch_summary Samples.provider 1 "BAD" = Returned d ->
     fetched_dicts Samples.provider Samples.three_tickers !! 1%nat = Some d /\
     dict_keys d = summary_keys) /\
  (exists r,
     rows (batch_fetch Samples.provider Samples.three_tickers) !! 1%nat = Some r /\
     at_col "Ticker" r = Str "BAD" /\
     (forall msg, fetch_summary Samples.provider 1 "BAD" = Raised msg ->
        at_col "Error" r = Str msg /\
        forall c, c <> "Ticker" -> c <> "Error" -> at_col c r = NaN) /\
     (forall d, fetch_summary Samples.provider 1 "BAD" = Returned d ->
        (forall c, at_col c r = at_col c (list_to_map d)) /\
        at_col "Error" r = NaN /\
        exists inf,
          (lookup_info Samples.provider 1 "BAD" = InfoDict inf \/
           (lookup_info Samples.provider 1 "BAD" = InfoNoAttribute /\ inf = empty_info)) /\
          at_col "Name" r = Str (name_of inf "BAD") /\
          at_col "Price" r = price_of inf /\
          at_col "Sector" r = Str (sector_of inf) /\
          at_col "Trailing PE" r = get_or_nan (trailingPE inf) /\
          at_col "Forward PE" r = get_or_nan (forwardPE inf) /\
          at_col "Dividend %" r = Num (dividend_pct inf) /\
          at_col "Analyst 5y Growth %" r
            = analyst_growth (lookup_analysis Samples.provider 1 "BAD"))).
Proof.
  split; [reflexivity|].
  exact (batch_fetch_one_row_per_ticker Samples.provider Samples.three_tickers
           1%nat "BAD" eq_refl).
Defined.

(** The isolation example of the design document: three tickers, the
    second of which raises, give a table of three rows, the second with
    nothing but its ticker and its error text and the others with their
    fundamentals. *)
Example batch_fetch_isolation :
  List.map dict_keys (fetched_dicts Samples.provider Samples.three_tickers)
    = [summary_keys; ["Ticker"; "Error"]; summary_keys] /\
  List.map (Rowwise.cells_of ["Ticker"; "Price"; "Dividend %"; "Error"])
    (rows (batch_fetch Samples.provider Samples.three_tickers))
    = [[Str "AAPL"; Num 150; Num (0.02 * 100); NaN];
       [Str "BAD"; NaN; NaN; Str "boom"];
       [Str "KO"; Num 60; Num (-0.01 * 100); NaN]].
Proof. split; vm_compute; reflexivity. Qed.

(** A ticker listed twice is fetched twice, and the two fetches need not
    agree: with a provider whose second query fails, the first row has the
    fundamentals and the second row the error. *)
Example batch_fetch_repeated_ticker :
  List.map (Rowwise.cells_of ["Ticker"; "Price"; "Error"])
    (rows (batch_fetch Samples.flaky_provider ["AAPL"; "AAPL"]))
  = [[Str "AAPL"; Num 150; NaN]; [Str "AAPL"; NaN; Str "timeout"]].
Proof. vm_compute. reflexivity. Qed.

End Fetching.

Module Derivation.
Import Frame Fetcher Screen Rowwise.
Import FrameFacts ScreenFacts SortFacts RowFacts FetcherFacts PipelineFacts Pipeline.

Lemma elem_of_map {X Y : Type} (f : X -> Y) (l : list X) (y : Y) :
  y ∈ List.map f l <-> exists x, y = f x /\ x ∈ l.
Proof.
  rewrite list_elem_of_In, in_map_iff. split; intros (x & H1 & H2); exists x.
  - split; [now symmetry | now apply list_elem_of_In].
  - split; [now symmetry | now apply list_elem_of_In].
Qed.

Lemma bind_Raise_inv {A B : Type} (m : result A) (f : A -> result B) (e : error) :
  (m ≫= f) = Raise e -> m = Raise e \/ exists a, m = Ok a /\ f a = Raise e.
Proof.
  destruct m as [a|e']; intros H.
  - right. exists a. split; [reflexivity | exact H].
  - left. injection H as ->. reflexivity.
Qed.

Lemma getitem_Raise_inv (df : DataFrame) (c : string) (e : error) :
  getitem df c = Raise e -> e = KeyError c.
Proof. unfold getitem. destruct (decide (c ∈ columns df)); congruence. Qed.

(** The only exception of the preparation is a missing column. *)
Lemma prepare_Raise_inv (cfg : Config) (df : DataFrame) (e : error) :
  prepare cfg df = Raise e -> exists c, e = KeyError c.
Proof.
  unfold prepare. intros H.
  apply bind_Raise_inv in H as [H|(pe & _ & H)]; [apply getitem_Raise_inv in H; eauto|].
  cbv zeta in H.
  apply bind_Raise_inv in H as [H|(df2 & _ & H)].
  - destruct (growth_source cfg); [|discriminate].
    apply bind_Raise_inv in H as [H|(a & _ & H)]; [apply getitem_Raise_inv in H; eauto|].
    cbv zeta in H.
    apply bind_Raise_inv in H as [H|(g & _ & H)]; [apply getitem_Raise_inv in H; eauto|].
    discriminate.
  - apply bind_Raise_inv in H as [H|(d & _ & H)]; [apply getitem_Raise_inv in H; eauto|].
    cbv zeta in H.
    apply bind_Raise_inv in H as [H|(g & _ & H)]; [apply getitem_Raise_inv in H; eauto|].
    discriminate.
Qed.

(** The columns a prepared table has. *)
Lemma prepared_has_operands (cfg : Config) (df prepared : DataFrame) :
  prepare cfg df = Ok prepared ->
  "Growth % Used" ∈ columns prepared /\ "Dividend %" ∈ columns prepared /\
  "PE Used" ∈ columns prepared.
Proof.
  intros H. apply prepare_Ok_inv in H as ((_ & _ & HD) & ->). simpl.
  unfold prepared_columns. repeat split; label_in.
Qed.

(** The derivation never divides by zero, whatever the table. *)
Lemma derive_no_zero_division (cfg : Config) (df : DataFrame) :
  derive cfg df <> Raise ZeroDivision.
Proof.
  unfold derive. destruct (prepare cfg df) as [prepared|e] eqn:E.
  - destruct (prepared_has_operands cfg df prepared E) as (HG & HD & HP).
    rewrite bind_Ok, (pegy_step_rowwise prepared HG HD HP). discriminate.
  - apply prepare_Raise_inv in E as (c & ->). discriminate.
Qed.

Lemma derive_row_clamped (cfg : Config) (r : gmap string cell) :
  not_negative (at_col "Dividend %" (derive_row cfg r)) /\
  not_negative (at_col "Growth % Used" (derive_row cfg r)) /\
  at_col "PEGY" (derive_row cfg r) = pegy_of (derive_row cfg r).
Proof.
  unfold derive_row. rewrite pegy_of_pegy_row, pegy_row_pegy.
  rewrite !pegy_row_other by discriminate.
  rewrite prepare_row_dividend, prepare_row_growth.
  split; [|split]; [| |reflexivity]; intros q; apply clip_cell_nonneg.
Qed.

(** C9: after the clamping step, and in every row of the derived table
    and of the ranked table that a run puts out, the dividend and the
    growth used are not negative whenever they are numbers, whatever the
    manual growth and the provider's dividend; the PEGY of each row is
    computed from these clamped operands. *)
Theorem clamped_operands_never_negative (cfg : Config) (df derived : DataFrame)
    (H : derive cfg df = Ok derived) :
  (exists prepared,
     prepare cfg df = Ok prepared /\ pegy_step prepared = Ok derived /\
     forall r, r ∈ rows prepared ->
       not_negative (at_col "Dividend %" r) /\ not_negative (at_col "Growth % Used" r)) /\
  (forall r, r ∈ rows derived ->
     not_negative (at_col "Dividend %" r) /\ not_negative (at_col "Growth % Used" r) /\
     at_col "PEGY" r = pegy_of r) /\
  (forall rnd o, run_screen rnd cfg df = Ok o ->
     forall r, r ∈ rows (ranked o) ->
       not_negative (at_col "Dividend %" r) /\ not_negative (at_col "Growth % Used" r) /\
       at_col "PEGY" r = pegy_of r).
Proof.
  assert (D : forall r, r ∈ rows derived ->
     not_negative (at_col "Dividend %" r) /\ not_negative (at_col "Growth % Used" r) /\
     at_col "PEGY" r = pegy_of r).
  { destruct (derive_Ok_inv cfg df derived H) as (_ & ->). simpl.
    intros r Hr. apply elem_of_map in Hr as (r0 & -> & _). apply derive_row_clamped. }
  split; [|split; [exact D|]].
  - pose proof H as H0. unfold derive in H0.
    apply bind_Ok_inv in H0 as (prepared & Hp & Hs).
    exists prepared. split; [exact Hp|]. split; [exact Hs|].
    apply prepare_Ok_inv in Hp as (_ & ->). simpl.
    intros r Hr. apply elem_of_map in Hr as (r0 & -> & _).
    rewrite prepare_row_dividend, prepare_row_growth.
    split; intros q; apply clip_cell_nonneg.
  - intros rnd o Ho r Hr.
    destruct (ranked_of_derived cfg df o Ho) as (derived' & Hd' & _ & Hperm & _).
    rewrite H in Hd'. injection Hd' as <-.
    apply D. rewrite <- Hperm in Hr. now apply elem_of_filter in Hr as [Hr _].
Qed.

Lemma clamped_operands_never_negative_witness :
  exists derived,
    derive Samples.negative_config (batch_fetch Samples.provider Samples.three_tickers)
      = Ok derived /\
    ((exists prepared,
        prepare Samples.negative_config
          (batch_fetch Samples.provider Samples.three_tickers) = Ok prepared /\
        pegy_step prepared = Ok derived /\
        forall r, r ∈ rows prepared ->
          not_negative (at_col "Dividend %" r) /\ not_negative (at_col "Growth % Used" r)) /\
     (forall r, r ∈ rows derived ->
        not_negative (at_col "Dividend %" r) /\ not_negative (at_col "Growth % Used" r) /\
        at_col "PEGY" r = pegy_of r) /\
     (forall rnd o, run_screen rnd Samples.negative_config
                  (batch_fetch Samples.provider Samples.three_tickers) = Ok o ->
        forall r, r ∈ rows (ranked o) ->
          not_negative (at_col "Dividend %" r) /\ not_negative (at_col "Growth % Used" r) /\
          at_col "PEGY" r = pegy_of r)).
Proof.
  assert (R : prepare_reads Samples.negative_config
                (columns (batch_fetch Samples.provider Samples.three_tickers))).
  { split; [|split]; [|discriminate|]; apply list_elem_of_In; vm_compute; tauto. }
  eexists. split; [exact (derive_rowwise _ _ R)|].
  exact (clamped_operands_never_negative _ _ _ (derive_rowwise _ _ R)).
Defined.

(** ** Rows of a fetched table *)

(** A fetched row is the row of a failed ticker, with nothing but its
    ticker and its error text, or the row of a fetched ticker, with the
    cells of its summary. *)
Lemma fetched_row_shape (p : Provider) (tickers : list string) (r0 : gmap string cell) :
  r0 ∈ rows (batch_fetch p tickers) ->
  (forall c, c <> "Ticker" -> c <> "Error" -> at_col c r0 = NaN) \/
  (exists inf a t, forall c, c ∈ summary_keys ->
     at_col c r0 = at_col c (list_to_map (summary_of inf a t))).
Proof.
  intros Hr. apply list_elem_of_lookup in Hr as (i & Hi).
  apply batch_fetch_lookup_inv in Hi as (t & Ht & ->).
  pose proof (fun c => fetched_label_in_columns p tickers i t c Ht) as Hcols.
  destruct (fetch_or_error_keys p i t) as [(msg & _ & E)|(inf & a & _ & E)];
    rewrite E in *.
  - left. intros c H1 H2. now apply error_row_missing.
  - right. exists inf, a, t. intros c Hc. apply at_col_row_of. now apply Hcols.
Qed.

Lemma absent_NaN : absent NaN.
Proof. intros q. discriminate. Qed.

Lemma absent_Num (q : Q) : ~ absent (Num q).
Proof. intros H. now apply (H q). Qed.

(** In a prepared fetched row either the P/E is missing or all three
    operands of the PEGY are numbers. *)
Lemma prepared_fetched_row (cfg : Config) (p : Provider) (tickers : list string)
    (r0 : gmap string cell) :
  r0 ∈ rows (batch_fetch p tickers) ->
  at_col "PE Used" (prepare_row cfg r0) = NaN \/
  exists pe g d,
    at_col "PE Used" (prepare_row cfg r0) = Num pe /\
    at_col "Growth % Used" (prepare_row cfg r0) = Num g /\
    at_col "Dividend %" (prepare_row cfg r0) = Num d.
Proof.
  intros Hr. rewrite prepare_row_pe, prepare_row_growth, prepare_row_dividend.
  destruct (fetched_row_shape p tickers r0 Hr) as [He|(inf & a & t & Hs)].
  - left. apply He; destruct (pe_col_cases cfg) as [-> | ->]; discriminate.
  - assert (HD : at_col "Dividend %" r0 = Num (dividend_pct inf)).
    { rewrite Hs by (apply list_elem_of_In; simpl; tauto).
      now rewrite summary_of_lookup. }
    assert (HA : forall s, at_col "Analyst 5y Growth %" r0 <> Str s).
    { intros s. rewrite Hs by (apply list_elem_of_In; simpl; tauto).
      rewrite summary_of_lookup. simpl. apply analyst_growth_not_text. }
    assert (HP : exists o, at_col (pe_col cfg) r0 = get_or_nan o).
    { destruct (pe_col_cases cfg) as [-> | ->];
        rewrite Hs by (apply list_elem_of_In; simpl; tauto);
        rewrite summary_of_lookup; simpl; eauto. }
    destruct HP as ([pe|] & HP); rewrite HP; simpl; [right | now left].
    destruct (growth_used_number cfg r0 HA) as (g0 & ->).
    destruct (clip_cell_number g0) as (g & ->).
    rewrite HD. destruct (clip_cell_number (dividend_pct inf)) as (d & ->).
    now exists pe, g, d.
Qed.

(** The PEGY written into a row whose P/E is missing or whose three
    operands are numbers. *)
Lemma pegy_row_cases (r : gmap string cell) :
  (at_col "PE Used" r = NaN \/
   exists pe g d, at_col "PE Used" r = Num pe /\ at_col "Growth % Used" r = Num g /\
                  at_col "Dividend %" r = Num d) ->
  (absent (at_col "PEGY" (pegy_row r)) <->
     absent (at_col "PE Used" r) \/ zero_denominator r) /\
  (~ absent (at_col "PEGY" (pegy_row r)) ->
     exists pe g d,
       at_col "PE Used" r = Num pe /\ at_col "Growth % Used" r = Num g /\
       at_col "Dividend %" r = Num d /\
       at_col "PEGY" (pegy_row r) = Num (pe / (g + d))).
Proof.
  rewrite pegy_row_pegy. intros [Hpe|(pe & g & d & Hpe & Hg & Hd)].
  - assert (Ha : absent (at_col "PE Used" r)) by (rewrite Hpe; apply absent_NaN).
    rewrite (pegy_of_absent_pe r Ha). split.
    + split; [now left | intros _; apply absent_NaN].
    + intros H. destruct (H absent_NaN).
  - rewrite (pegy_of_numbers r pe g d Hpe Hg Hd).
    destruct (Qeq_bool (g + d) 0) eqn:E.
    + split.
      * split; [|intros _; apply absent_NaN]. intros _. right.
        exists g, d. split; [exact Hg|]. split; [exact Hd|]. now apply Qeq_bool_iff.
      * intros H. destruct (H absent_NaN).
    + split.
      * split; [intros H; destruct (absent_Num _ H)|].
        intros [H|(g' & d' & Hg' & Hd' & Hz)].
        -- rewrite Hpe in H. destruct (absent_Num _ H).
        -- rewrite Hg in Hg'. rewrite Hd in Hd'.
           injection Hg' as <-. injection Hd' as <-.
           apply Qeq_bool_iff in Hz. congruence.
      * intros _. exists pe, g, d. auto.
Qed.

(** C4: for every fetched table, once the first three steps have run,
    the PEGY step returns without an exception; in each row the PEGY is
    missing exactly when the P/E used is missing or the clamped
    denominator, growth used plus dividend, is exactly 0, and otherwise it
    is the P/E used divided by that denominator.  No table makes the
    derivation divide by zero. *)
Theorem pegy_absent_exactly (p : Provider) (tickers : list string) (cfg : Config)
    (prepared : DataFrame)
    (H : prepare cfg (batch_fetch p tickers) = Ok prepared) :
  (exists derived,
     pegy_step prepared = Ok derived /\
     rows derived = List.map pegy_row (rows prepared) /\
     forall r, r ∈ rows prepared ->
       (absent (at_col "PEGY" (pegy_row r)) <->
          absent (at_col "PE Used" r) \/ zero_denominator r) /\
       (~ absent (at_col "PEGY" (pegy_row r)) ->
          exists pe g d,
            at_col "PE Used" r = Num pe /\ at_col "Growth % Used" r = Num g /\
            at_col "Dividend %" r = Num d /\
            at_col "PEGY" (pegy_row r) = Num (pe / (g + d)))) /\
  (forall df, derive cfg df <> Raise ZeroDivision).
Proof.
  split; [|intros df; apply derive_no_zero_division].
  destruct (prepared_has_operands _ _ _ H) as (HG & HD & HP).
  eexists. split; [exact (pegy_step_rowwise prepared HG HD HP)|].
  split; [reflexivity|].
  apply prepare_Ok_inv in H as (_ & ->). simpl.
  intros r Hr. apply elem_of_map in Hr as (r0 & -> & Hr0).
  apply pegy_row_cases. now apply (prepared_fetched_row cfg p tickers).
Qed.

Lemma pegy_absent_exactly_witness :
  exists prepared,
    prepare Samples.negative_config (batch_fetch Samples.provider Samples.three_tickers)
      = Ok prepared /\
    ((exists derived,
        pegy_step prepared = Ok derived /\
        rows derived = List.map pegy_row (rows prepared) /\
        forall r, r ∈ rows prepared ->
          (absent (at_col "PEGY" (pegy_row r)) <->
             absent (at_col "PE Used" r) \/ zero_denominator r) /\
          (~ absent (at_col "PEGY" (pegy_row r)) ->
             exists pe g d,
               at_col "PE Used" r = Num pe /\ at_col "Growth % Used" r = Num g /\
               at_col "Dividend %" r = Num d /\
               at_col "PEGY" (pegy_row r) = Num (pe / (g + d)))) /\
     (forall df, derive Samples.negative_config df <> Raise ZeroDivision)).
Proof.
  assert (R : prepare_reads Samples.negative_config
                (columns (batch_fetch Samples.provider Samples.three_tickers))).
  { split; [|split]; [|discriminate|]; apply list_elem_of_In; vm_compute; tauto. }
  eexists. split; [exact (prepare_rowwise _ _ R)|].
  exact (pegy_absent_exactly _ _ _ _ (prepare_rowwise _ _ R)).
Defined.

(** The zero-denominator example of the design document: a growth of 0
    and a dividend of 0 give a missing PEGY. *)
Example zero_denominator_example :
  pegy_of {[ "PE Used" := Num 24; "Growth % Used" := Num 0; "Dividend %" := Num 0 ]} = NaN.
Proof. vm_compute. reflexivity. Qed.

End Derivation.

Module ErrorRows.
Import Frame Fetcher Screen Rowwise.
Import FrameFacts ScreenFacts SortFacts RowFacts FetcherFacts PipelineFacts Pipeline Derivation.

(** The cells that the row of a failed ticker has after the derivation. *)
Lemma derived_error_row (cfg : Config) (cols : list string) (t msg : string) :
  let r := derive_row cfg (row_of cols (error_dict t msg)) in
  at_col "Growth % Used" r = clip_cell 0 (Num (manual_growth cfg)) /\
  (forall c, c ∈ ["Name"; "Price"; "Sector"; "Trailing PE"; "Forward PE"; "Dividend %";
                  "Analyst 5y Growth %"; "PE Used"; "PEGY"] -> at_col c r = NaN).
Proof.
  cbv zeta. unfold derive_row.
  assert (HPE : at_col "PE Used" (prepare_row cfg (row_of cols (error_dict t msg))) = NaN).
  { rewrite prepare_row_pe. apply error_row_missing;
      destruct (pe_col_cases cfg) as [-> | ->]; discriminate. }
  split.
  - rewrite pegy_row_other by discriminate. rewrite prepare_row_growth.
    unfold growth_used. destruct (growth_source cfg); [|reflexivity].
    now rewrite error_row_missing by discriminate.
  - intros c Hc.
    repeat (apply elem_of_cons in Hc as [->|Hc]);
      try (now apply elem_of_nil in Hc);
      try (rewrite pegy_row_other by discriminate;
           rewrite prepare_row_other by discriminate;
           now apply error_row_missing).
    + rewrite pegy_row_other by discriminate. rewrite prepare_row_dividend.
      now rewrite error_row_missing by discriminate.
    + rewrite pegy_row_other by discriminate. exact HPE.
    + rewrite pegy_row_pegy. apply pegy_of_absent_pe. rewrite HPE. apply absent_NaN.
Qed.

(** C2, refuted as stated: the row of a failed ticker does carry a
    number, the growth used.  With a manual growth of 10 and no filter,
    the row of the failed ticker BAD is in the ranked table with a growth
    used of 10. *)
Lemma error_row_has_numeric_growth :
  exists o r,
    run_screen Samples.half_even Samples.unfiltered_config
      (batch_fetch Samples.provider Samples.three_tickers) = Ok o /\
    rows (ranked o) !! 1%nat = Some r /\
    at_col "Ticker" r = Str "BAD" /\
    at_col "Error" r = Str "boom" /\
    at_col "Growth % Used" r = Num 10.
Proof.
  eexists. eexists. split; [vm_compute; reflexivity|].
  split; [reflexivity|]. repeat split; vm_compute; reflexivity.
Qed.

(** C2, amended: whenever the derivation completes on a fetched table,
    the row of a failed ticker keeps its ticker and its error text, has no
    number in any field but the growth used, which is the manual growth
    floored at 0, is dropped by the filter step as soon as one of the two
    filters is active, and in the ranked table stands only before rows
    that have no PEGY either. *)
Theorem error_row_through_pipeline (p : Provider) (cfg : Config) (tickers : list string)
    (i : nat) (t msg : string) (derived : DataFrame)
    (Hi : tickers !! i = Some t)
    (Hf : fetch_summary p i t = Raised msg)
    (Hd : derive cfg (batch_fetch p tickers) = Ok derived) :
  exists r,
    rows derived !! i = Some r /\
    at_col "Ticker" r = Str t /\
    at_col "Error" r = Str msg /\
    at_col "Growth % Used" r = clip_cell 0 (Num (manual_growth cfg)) /\
    (forall c, c ∈ ["Name"; "Price"; "Sector"; "Trailing PE"; "Forward PE"; "Dividend %";
                    "Analyst 5y Growth %"; "PE Used"; "PEGY"] -> at_col c r = NaN) /\
    (forall filtered, apply_filters cfg derived = Ok filtered ->
       (0 < min_div_yield cfg \/ 0 < max_pegy cfg)%Q -> r ∉ rows filtered) /\
    (forall rnd o, run_screen rnd cfg (batch_fetch p tickers) = Ok o ->
       forall a b s, (a < b)%nat ->
         rows (ranked o) !! a = Some r -> rows (ranked o) !! b = Some s ->
         absent (at_col "PEGY" s)).
Proof.
  pose proof (derive_Ok_inv _ _ _ Hd) as (_ & E).
  set (cols := columns (batch_fetch p tickers)) in *.
  assert (Hrow : fetch_or_error p i t = error_dict t msg)
    by (unfold fetch_or_error; now rewrite Hf).
  assert (Hin : forall c, c ∈ dict_keys (error_dict t msg) -> c ∈ cols).
  { intros c Hc. apply (fetched_label_in_columns p tickers i t c Hi). now rewrite Hrow. }
  destruct (derived_error_row cfg cols t msg) as (HG & HN).
  set (r := derive_row cfg (row_of cols (error_dict t msg))) in *.
  assert (HP : absent (at_col "PEGY" r)).
  { rewrite HN by (apply list_elem_of_In; simpl; tauto). apply absent_NaN. }
  assert (HD : absent (at_col "Dividend %" r)).
  { rewrite HN by (apply list_elem_of_In; simpl; tauto). apply absent_NaN. }
  exists r. split; [|split; [|split; [|split; [exact HG|split; [exact HN|split]]]]].
  - rewrite E. cbn [rows]. rewrite lookup_map.
    rewrite (batch_fetch_lookup p tickers i t Hi). cbn [fmap option_fmap option_map].
    now rewrite Hrow.
  - unfold r, derive_row. rewrite pegy_row_other by discriminate.
    rewrite prepare_row_other by discriminate.
    rewrite error_row_cells by (apply Hin, list_elem_of_In; simpl; tauto). reflexivity.
  - unfold r, derive_row. rewrite pegy_row_other by discriminate.
    rewrite prepare_row_other by discriminate.
    rewrite error_row_cells by (apply Hin, list_elem_of_In; simpl; tauto). reflexivity.
  - intros filtered Hfl Hact Hr.
    apply apply_filters_Ok_inv in Hfl. subst filtered. simpl in Hr.
    apply elem_of_filter in Hr as [_ Hk].
    destruct Hact as [Hmin|Hmax].
    + rewrite (keep_row_absent_dividend cfg r Hmin HD) in Hk. discriminate.
    + rewrite (keep_row_absent_pegy cfg r Hmax HP) in Hk. discriminate.
  - intros rnd o Ho a b s Hab Ha Hb.
    destruct (ranked_of_derived _ _ _ Ho) as (_ & _ & _ & _ & Hs).
    apply (ranks_before_absent r s); [|exact HP].
    exact (sorted_lookup ranks_before _ a b r s Hs Hab Ha Hb).
Qed.

Lemma error_row_through_pipeline_witness :
  Samples.three_tickers !! 1%nat = Some "BAD" /\
  fetch_summary Samples.provider 1 "BAD" = Raised "boom" /\
  exists derived,
    derive Samples.analyst_config (batch_fetch Samples.provider Samples.three_tickers)
      = Ok derived /\
    exists r,
      rows derived !! 1%nat = Some r /\
      at_col "Ticker" r = Str "BAD" /\
      at_col "Error" r = Str "boom" /\
      at_col "Growth % Used" r = clip_cell 0 (Num (manual_growth Samples.analyst_config)) /\
      (forall c, c ∈ ["Name"; "Price"; "Sector"; "Trailing PE"; "Forward PE"; "Dividend %";
                      "Analyst 5y Growth %"; "PE Used"; "PEGY"] -> at_col c r = NaN) /\
      (forall filtered, apply_filters Samples.analyst_config derived = Ok filtered ->
         (0 < min_div_yield Samples.analyst_config \/ 0 < max_pegy Samples.analyst_config)%Q ->
         r ∉ rows filtered) /\
      (forall rnd o, run_screen rnd Samples.analyst_config
                   (batch_fetch Samples.provider Samples.three_tickers) = Ok o ->
         forall a b s, (a < b)%nat ->
           rows (ranked o) !! a = Some r -> rows (ranked o) !! b = Some s ->
           absent (at_col "PEGY" s)).
Proof.
  assert (R : prepare_reads Samples.analyst_config
                (columns (batch_fetch Samples.provider Samples.three_tickers))).
  { split; [|split]; [|intros _|]; apply list_elem_of_In; vm_compute; tauto. }
  split; [reflexivity|]. split; [reflexivity|].
  eexists. split; [exact (derive_rowwise _ _ R)|].
  exact (error_row_through_pipeline Samples.provider Samples.analyst_config
           Samples.three_tickers 1%nat "BAD" "boom" _ eq_refl eq_refl
           (derive_rowwise _ _ R)).
Defined.

End ErrorRows.

Module CsvExport.
Import Frame Fetcher Screen Rowwise.
Import FrameFacts ScreenFacts SortFacts RowFacts FetcherFacts PipelineFacts Pipeline Derivation.

Lemma derived_labels_fresh (p : Provider) (tickers : list string) (k : string) :
  k ∈ ["PE Used"; "Growth % Used"; "PEGY"] -> k ∉ columns (batch_fetch p tickers).
Proof.
  intros Hk Hc. apply columns_batch_fetch in Hc as [Hc| ->].
  - apply list_elem_of_In in Hk, Hc. simpl in Hk, Hc.
    repeat (destruct Hk as [<-|Hk]; [intuition discriminate|]). exact Hk.
  - apply list_elem_of_In in Hk. simpl in Hk. intuition discriminate.
Qed.

Lemma derived_columns_fetched (p : Provider) (tickers : list string) :
  derived_columns (columns (batch_fetch p tickers))
  = columns (batch_fetch p tickers) ++ ["PE Used"; "Growth % Used"; "PEGY"].
Proof.
  unfold derived_columns. apply add_labels_fresh.
  - repeat (apply NoDup_cons; split;
            [rewrite list_elem_of_In; simpl; intuition discriminate|]).
    apply NoDup_nil_2.
  - apply derived_labels_fresh.
Qed.

Lemma present_columns (rnd : Q -> Q) (df table : DataFrame) :
  present rnd df = Ok table -> columns table = presentation_columns.
Proof.
  unfold present. intros H. apply bind_Ok_inv in H as (sel & Hs & H).
  injection H as <-. simpl. unfold getitems in Hs.
  destruct (find _ presentation_columns); [discriminate|]. now injection Hs as <-.
Qed.

Lemma pe_col_not_presented (cfg : Config) : pe_col cfg ∉ presentation_columns.
Proof.
  intros H. apply list_elem_of_In in H.
  destruct (pe_col_cases cfg) as [E|E]; rewrite E in H; simpl in H; intuition discriminate.
Qed.

(** C3, refuted as stated: the export does not have the column order of
    the presentation table.  For the one ticker AAPL the header of the
    export lists eleven columns, starting Ticker, Name, Price, Sector,
    while the presentation table has the eight columns Ticker, Name,
    Sector, Price, ... *)
Lemma export_columns_differ_from_presentation :
  exists o,
    run_screen Samples.half_even Samples.manual_config (batch_fetch Samples.provider ["AAPL"]) = Ok o /\
    header (csv o)
      = ["Ticker"; "Name"; "Price"; "Sector"; "Trailing PE"; "Forward PE"; "Dividend %";
         "Analyst 5y Growth %"; "PE Used"; "Growth % Used"; "PEGY"] /\
    columns (shown o) = presentation_columns /\
    header (csv o) <> presentation_columns.
Proof.
  eexists. split; [vm_compute; reflexivity|].
  split; [reflexivity|]. split; [reflexivity|]. discriminate.
Qed.

(** C3, amended: the export serializes exactly the ranked and filtered
    table: a header, then one record per surviving row in ranked order,
    each record holding the cells of the row in header order and nothing
    else (no index field); the header lists every column of that table in
    the table's own order, the fetched columns followed by PE Used,
    Growth % Used and PEGY, which is not the list of the eight
    presentation columns. *)
Theorem export_is_the_ranked_table (p : Provider) (tickers : list string) (cfg : Config)
    (rnd : Q -> Q) (o : Output) (H : run_screen rnd cfg (batch_fetch p tickers) = Ok o) :
  header (csv o) = columns (ranked o) /\
  header (csv o) = columns (batch_fetch p tickers) ++ ["PE Used"; "Growth % Used"; "PEGY"] /\
  records (csv o) = List.map (cells_of (header (csv o))) (rows (ranked o)) /\
  length (records (csv o)) = length (rows (ranked o)) /\
  (forall rec, rec ∈ records (csv o) -> length rec = length (header (csv o))) /\
  pe_col cfg ∈ header (csv o) /\
  columns (shown o) = presentation_columns /\
  header (csv o) <> columns (shown o).
Proof.
  destruct (ranked_of_derived _ _ _ H) as (derived & Hd & Hc & _ & _).
  apply derive_Ok_inv in Hd as ((Hpe & _ & _) & ->). cbn [columns] in Hc.
  rewrite derived_columns_fetched in Hc.
  apply run_screen_Ok_inv in H as (_ & _ & table & _ & _ & _ & Hp & E).
  apply present_columns in Hp.
  assert (Hh : header (csv o) = columns (ranked o)) by (rewrite E; reflexivity).
  assert (Hr : records (csv o) = List.map (cells_of (header (csv o))) (rows (ranked o)))
    by (rewrite E; reflexivity).
  assert (Hs : columns (shown o) = presentation_columns) by (rewrite E; exact Hp).
  assert (Hin : pe_col cfg ∈ header (csv o)).
  { rewrite Hh, Hc. apply elem_of_app. now left. }
  split; [exact Hh|]. split; [now rewrite Hh|]. split; [exact Hr|].
  split; [rewrite Hr; apply length_map|]. split.
  - intros rec Hrec. rewrite Hr in Hrec. apply elem_of_map in Hrec as (r & -> & _).
    unfold cells_of. apply length_map.
  - split; [exact Hin|]. split; [exact Hs|].
    intros Heq. apply (pe_col_not_presented cfg). rewrite <- Hs, <- Heq. exact Hin.
Qed.

Lemma export_is_the_ranked_table_witness :
  exists o,
    run_screen Samples.half_even Samples.manual_config
      (batch_fetch Samples.provider Samples.three_tickers) = Ok o /\
    (header (csv o) = columns (ranked o) /\
     header (csv o)
       = columns (batch_fetch Samples.provider Samples.three_tickers)
         ++ ["PE Used"; "Growth % Used"; "PEGY"] /\
     records (csv o) = List.map (cells_of (header (csv o))) (rows (ranked o)) /\
     length (records (csv o)) = length (rows (ranked o)) /\
     (forall rec, rec ∈ records (csv o) -> length rec = length (header (csv o))) /\
     pe_col Samples.manual_config ∈ header (csv o) /\
     columns (shown o) = presentation_columns /\
     header (csv o) <> columns (shown o)).
Proof.
  destruct (run_screen Samples.half_even Samples.manual_config
              (batch_fetch Samples.provider Samples.three_tickers)) as [o|e] eqn:E.
  - exists o. split; [reflexivity|].
    exact (export_is_the_ranked_table Samples.provider Samples.three_tickers
             Samples.manual_config Samples.half_even o E).
  - exfalso. vm_compute in E. discriminate E.
Defined.

End CsvExport.

Module Runs.
Import Frame Fetcher Screen Rowwise.
Import FrameFacts ScreenFacts PipelineFacts FetcherFacts Pipeline Derivation.

Lemma at_col_rounded (cols ks : list string) (g : string -> cell)
    (r : gmap string cell) (c : string) :
  at_col c (fold_right (fun k r' => if decide (k ∈ cols) then <[k := g k]> r' else r') r ks)
  = if decide (c ∈ ks /\ c ∈ cols) then g c else at_col c r.
Proof.
  induction ks as [|k ks IH]; simpl.
  - destruct (decide (c ∈ [] /\ c ∈ cols)) as [[H _]|_]; [|reflexivity].
    now apply elem_of_nil in H.
  - destruct (decide (k ∈ cols)) as [Hk|Hk].
    + destruct (decide (k = c)) as [->|Hne].
      * rewrite at_col_insert.
        destruct (decide (c ∈ c :: ks /\ c ∈ cols)) as [_|N]; [reflexivity|].
        exfalso. apply N. split; [left | exact Hk].
      * rewrite at_col_insert_ne by exact Hne. rewrite IH.
        destruct (decide (c ∈ ks /\ c ∈ cols)) as [[A B]|N];
          destruct (decide (c ∈ k :: ks /\ c ∈ cols)) as [[A' B']|N']; try reflexivity.
        -- exfalso. apply N'. split; [now right | exact B].
        -- exfalso. apply elem_of_cons in A' as [->|A']; [now apply Hne | now apply N].
    + rewrite IH.
      destruct (decide (c ∈ ks /\ c ∈ cols)) as [[A B]|N];
        destruct (decide (c ∈ k :: ks /\ c ∈ cols)) as [[A' B']|N']; try reflexivity.
      * exfalso. apply N'. split; [now right | exact B].
      * exfalso. apply elem_of_cons in A' as [->|A']; [now apply Hk | now apply N].
Qed.

Lemma getitems_Raise_inv (df : DataFrame) (cs : list string) (e : error) :
  getitems df cs = Raise e -> exists c, c ∈ cs /\ (c ∉ columns df) /\ e = KeyError c.
Proof.
  unfold getitems. destruct (find _ cs) as [c|] eqn:E; [|discriminate].
  intros [= <-]. apply find_some in E as [Hc Hn].
  apply negb_true_iff, bool_decide_eq_false in Hn.
  exists c. split; [now apply list_elem_of_In | now split].
Qed.

Lemma getitems_Ok_inv (df sel : DataFrame) (cs : list string) :
  getitems df cs = Ok sel -> sel = mkFrame cs (List.map (project_row cs) (rows df)).
Proof.
  unfold getitems. destruct (find _ cs); [discriminate|]. now intros [= <-].
Qed.

(** The table handed to the display, row by row. *)
Lemma present_Ok_inv (rnd : Q -> Q) (df table : DataFrame) :
  present rnd df = Ok table ->
  columns table = presentation_columns /\
  length (rows table) = length (rows df) /\
  forall i r, rows df !! i = Some r ->
    exists r', rows table !! i = Some r' /\
      (forall c, c ∈ ["Ticker"; "Name"; "Sector"] -> at_col c r' = at_col c r) /\
      (forall c, c ∈ rounded_columns -> at_col c r' = round_cell rnd (at_col c r)).
Proof.
  intros H. unfold present in H.
  apply bind_Ok_inv in H as (sel & Hs & H). injection H as <-.
  apply getitems_Ok_inv in Hs. subst sel. cbn [round_columns columns rows].
  split; [reflexivity|]. split; [now rewrite !length_map|].
  intros i r Hi. eexists. split; [rewrite !lookup_map, Hi; reflexivity|].
  split; intros c Hc; rewrite at_col_rounded.
  - destruct (decide (c ∈ rounded_columns /\ c ∈ presentation_columns)) as [[A _]|_].
    + exfalso. apply list_elem_of_In in A, Hc. simpl in A, Hc.
      repeat (destruct Hc as [<-|Hc]; [intuition discriminate|]). exact Hc.
    + apply at_col_project_row.
      apply list_elem_of_In in Hc. apply list_elem_of_In. simpl in *. tauto.
  - assert (Hp : c ∈ presentation_columns).
    { apply list_elem_of_In in Hc. apply list_elem_of_In. simpl in *. tauto. }
    destruct (decide (c ∈ rounded_columns /\ c ∈ presentation_columns)) as [_|N];
      [|exfalso; now apply N].
    now rewrite (at_col_project_row _ _ _ Hp).
Qed.

Lemma not_all_rows_of (l1 l2 : list (gmap string cell)) (v1 v2 : cell) :
  List.map (at_col "PEGY") l1 = [v1] -> List.map (at_col "PEGY") l2 = [v2] ->
  v1 <> v2 -> ~ (forall r, r ∈ l1 -> r ∈ l2).
Proof.
  destruct l1 as [|a [|a' l1]]; destruct l2 as [|b [|b' l2]]; simpl; try discriminate.
  intros [= <-] [= <-] Hne Hall. apply Hne.
  assert (Hin : a ∈ [b]) by (apply Hall; left).
  apply list_elem_of_singleton in Hin. now subst.
Qed.

(** C10, refuted as stated: a row of the presented table is not a row of
    the derived table with its values unchanged.  For the ticker AAPL
    with forward P/E 20, manual growth 10 and dividend 2, the derived and
    the ranked row have the PEGY 20 / (10 + 2), and the presented row has
    the PEGY 1.67, the two-decimal rounding of it. *)
Lemma presented_row_is_rounded :
  exists o derived,
    run_screen Samples.half_even Samples.manual_config
      (batch_fetch Samples.provider ["AAPL"]) = Ok o /\
    derive Samples.manual_config (batch_fetch Samples.provider ["AAPL"]) = Ok derived /\
    List.map (at_col "PEGY") (rows derived) = [Num (20 / (10 + 0.02 * 100))] /\
    List.map (at_col "PEGY") (rows (ranked o)) = [Num (20 / (10 + 0.02 * 100))] /\
    List.map (at_col "PEGY") (rows (shown o)) = [Num 1.67] /\
    ~ (forall r, r ∈ rows (shown o) -> r ∈ rows derived).
Proof.
  eexists. eexists.
  split; [vm_compute; reflexivity|]. split; [vm_compute; reflexivity|].
  split; [vm_compute; reflexivity|]. split; [vm_compute; reflexivity|].
  split; [vm_compute; reflexivity|].
  apply (not_all_rows_of _ _ (Num 1.67) (Num (20 / (10 + 0.02 * 100)))).
  - vm_compute. reflexivity.
  - vm_compute. reflexivity.
  - intros E. vm_compute in E. discriminate E.
Qed.

(** C10, amended: filtering and ranking only select and reorder rows.
    The ranked table of a run, which is the table that is exported, has
    the columns of the derived table; its rows are rows of the derived
    table, cell for cell and no more often than there, and the export
    writes them as they are.  The presented table shows the same rows in
    the same order under the eight presentation columns: ticker, name and
    sector as in the ranked row, and each numeric field as the display
    rounding of the ranked value, a missing value staying missing. *)
Theorem filter_and_rank_only_select_and_reorder (rnd : Q -> Q) (cfg : Config)
    (df : DataFrame) (o : Output) (H : run_screen rnd cfg df = Ok o) :
  exists derived,
    derive cfg df = Ok derived /\
    columns (ranked o) = columns derived /\
    rows (ranked o) ⊆+ rows derived /\
    (forall r, r ∈ rows (ranked o) -> r ∈ rows derived) /\
    header (csv o) = columns derived /\
    records (csv o) = List.map (cells_of (columns derived)) (rows (ranked o)) /\
    columns (shown o) = presentation_columns /\
    length (rows (shown o)) = length (rows (ranked o)) /\
    (forall i r, rows (ranked o) !! i = Some r ->
       exists r', rows (shown o) !! i = Some r' /\
         (forall c, c ∈ ["Ticker"; "Name"; "Sector"] -> at_col c r' = at_col c r) /\
         (forall c, c ∈ rounded_columns -> at_col c r' = round_cell rnd (at_col c r))).
Proof.
  destruct (ranked_of_derived cfg df o H) as (derived & Hd & Hc & Hperm & _).
  exists derived. split; [exact Hd|]. split; [exact Hc|].
  assert (Hsub : rows (ranked o) ⊆+ rows derived).
  { rewrite <- Hperm. apply sublist_submseteq, filter_sublist. }
  split; [exact Hsub|]. split.
  { intros r Hr. eapply elem_of_submseteq; eauto. }
  apply run_screen_Ok_inv in H as (_ & _ & table & _ & _ & _ & Hp & E).
  assert (Hs : shown o = table) by (rewrite E; reflexivity).
  assert (Hcsv : csv o = to_csv (ranked o)) by (rewrite E; reflexivity).
  rewrite Hs, Hcsv. unfold to_csv. cbn [header records]. rewrite Hc.
  split; [reflexivity|]. split; [reflexivity|].
  exact (present_Ok_inv rnd (ranked o) table Hp).
Qed.

Lemma filter_and_rank_only_select_and_reorder_witness :
  exists o,
    run_screen Samples.half_even Samples.manual_config
      (batch_fetch Samples.provider Samples.three_tickers) = Ok o /\
    exists derived,
      derive Samples.manual_config
        (batch_fetch Samples.provider Samples.three_tickers) = Ok derived /\
      columns (ranked o) = columns derived /\
      rows (ranked o) ⊆+ rows derived /\
      (forall r, r ∈ rows (ranked o) -> r ∈ rows derived) /\
      header (csv o) = columns derived /\
      records (csv o) = List.map (cells_of (columns derived)) (rows (ranked o)) /\
      columns (shown o) = presentation_columns /\
      length (rows (shown o)) = length (rows (ranked o)) /\
      (forall i r, rows (ranked o) !! i = Some r ->
         exists r', rows (shown o) !! i = Some r' /\
           (forall c, c ∈ ["Ticker"; "Name"; "Sector"] -> at_col c r' = at_col c r) /\
           (forall c, c ∈ rounded_columns ->
              at_col c r' = round_cell Samples.half_even (at_col c r))).
Proof.
  destruct (run_screen Samples.half_even Samples.manual_config
              (batch_fetch Samples.provider Samples.three_tickers)) as [o|e] eqn:E.
  - exists o. split; [reflexivity|].
    exact (filter_and_rank_only_select_and_reorder Samples.half_even Samples.manual_config
             (batch_fetch Samples.provider Samples.three_tickers) o E).
  - exfalso. vm_compute in E. discriminate E.
Defined.

(** The end-to-end example of the design document: the ticker AAPL typed
    twice, manual growth 10, forward P/E 20 and dividend 2 give two rows,
    each with PEGY 20 / (10 + 2), shown as 1.67. *)
Example duplicate_ticker_run :
  exists o,
    run_screen Samples.half_even Samples.manual_config
      (batch_fetch Samples.provider (Parser.parse_tickers "AAPL, AAPL")) = Ok o /\
    List.map (cells_of ["Ticker"; "PEGY"]) (rows (ranked o))
      = [[Str "AAPL"; Num (20 / (10 + 0.02 * 100))]; [Str "AAPL"; Num (20 / (10 + 0.02 * 100))]] /\
    List.map (cells_of ["Ticker"; "PEGY"]) (rows (shown o))
      = [[Str "AAPL"; Num 1.67]; [Str "AAPL"; Num 1.67]].
Proof.
  eexists. split; [vm_compute; reflexivity|]. split; vm_compute; reflexivity.
Qed.

(** An empty ticker list stops the run with the warning; a list whose
    every ticker fails stops it with the missing P/E column. *)
Example empty_and_failed_runs :
  run_button Samples.provider Samples.half_even Samples.manual_config "  ,, " = Warning /\
  run_button Samples.provider Samples.half_even Samples.manual_config "BAD" = Exception (KeyError "Forward PE").
Proof. split; vm_compute; reflexivity. Qed.

End Runs.

(* ===================================================================== *)
(** * Further properties of the ticker parser *)
(* ===================================================================== *)

Module ParserMore.
Import Parser Notions ParserFacts.

Lemma parse_tickers_tokens (txt : string) :
  parse_tickers txt
  = List.filter truthy (List.map (fun x => upper (strip x)) (split_where is_separator txt)).
Proof. unfold parse_tickers. now rewrite split_replace. Qed.

Lemma split_where_nonempty (sep : ascii -> bool) (s : string) : split_where sep s <> [].
Proof.
  induction s as [|c r IH]; simpl; [discriminate|].
  destruct (sep c); [discriminate|]. destruct (split_where sep r); discriminate.
Qed.

Lemma all_chars_lstrip (s : string) :
  all_chars is_space (lstrip s) = all_chars is_space s.
Proof.
  induction s as [|c r IH]; simpl; [reflexivity|].
  destruct (is_space c) eqn:E; simpl; [exact IH | now rewrite E].
Qed.

Lemma rstrip_empty (s : string) :
  rstrip s = EmptyString <-> all_chars is_space s = true.
Proof.
  induction s as [|c r IH]; simpl; [tauto|].
  destruct (rstrip r) as [|c' r'] eqn:E.
  - destruct (is_space c); simpl; [tauto|]. split; discriminate.
  - split; [discriminate|]. intros H. apply andb_true_iff in H as [_ H].
    apply IH in H. discriminate.
Qed.

Lemma strip_empty (s : string) :
  strip s = EmptyString <-> all_chars is_space s = true.
Proof. unfold strip. rewrite rstrip_empty. now rewrite all_chars_lstrip. Qed.

Lemma blank_tokens (s : string) :
  Forall (fun x => all_chars is_space x = true) (split_where is_separator s)
  <-> all_chars is_blank s = true.
Proof.
  induction s as [|c r IH]; simpl.
  - split; [reflexivity|]. intros _. now repeat constructor.
  - unfold is_blank at 1. destruct (is_separator c) eqn:E.
    + rewrite orb_true_r. simpl. rewrite <- IH. rewrite Forall_cons. simpl. tauto.
    + rewrite orb_false_r. destruct (split_where is_separator r) as [|h t] eqn:Es.
      * now destruct (split_where_nonempty is_separator r).
      * rewrite andb_true_iff, <- IH. rewrite !Forall_cons. simpl.
        rewrite andb_true_iff. tauto.
Qed.

Lemma filter_nil_iff {X : Type} (f : X -> bool) (l : list X) :
  List.filter f l = [] <-> Forall (fun x => f x = false) l.
Proof.
  induction l as [|x t IH]; simpl.
  - split; [constructor | reflexivity].
  - rewrite Forall_cons. destruct (f x); [|tauto].
    split; [discriminate | intros [H _]; discriminate].
Qed.

(** X1: the parser returns no symbol exactly when the text consists of
    separators and white space only. *)
Theorem parse_tickers_empty_iff (txt : string) :
  parse_tickers txt = [] <-> all_chars is_blank txt = true.
Proof.
  rewrite parse_tickers_tokens, filter_nil_iff, <- blank_tokens.
  rewrite Forall_map. apply Forall_iff. intros x.
  rewrite <- strip_empty. destruct (strip x) as [|c r]; simpl.
  - tauto.
  - split; discriminate.
Qed.

Lemma split_where_app (sep : ascii -> bool) (a b : string) (c : ascii) :
  sep c = true ->
  split_where sep (a ++ String c b) = split_where sep a ++ split_where sep b.
Proof.
  intros Hc. induction a as [|x r IH]; simpl.
  - now rewrite Hc.
  - rewrite IH. destruct (sep x); [reflexivity|].
    destruct (split_where sep r) as [|h t] eqn:E; [|reflexivity].
    now destruct (split_where_nonempty sep r).
Qed.

(** X2: parsing distributes over a separator: the symbols of two texts
    joined by a comma or by a newline are the symbols of the first
    followed by the symbols of the second. *)
Theorem parse_tickers_join (a b : string) :
  parse_tickers (a ++ String comma b) = parse_tickers a ++ parse_tickers b /\
  parse_tickers (a ++ String newline b) = parse_tickers a ++ parse_tickers b.
Proof.
  rewrite !parse_tickers_tokens.
  split; rewrite split_where_app by reflexivity;
    now rewrite List.map_app, List.filter_app.
Qed.

Lemma is_separator_upper_char (c : ascii) :
  is_separator (upper_char c) = is_separator c.
Proof. destruct c as [[] [] [] [] [] [] [] []]; reflexivity. Qed.

Lemma all_chars_upper (s : string) :
  all_chars (fun c => negb (is_separator c)) (upper s)
  = all_chars (fun c => negb (is_separator c)) s.
Proof.
  induction s as [|c r IH]; simpl; [reflexivity|].
  now rewrite is_separator_upper_char, IH.
Qed.

Lemma all_chars_lstrip_keep (P : ascii -> bool) (s : string) :
  all_chars P s = true -> all_chars P (lstrip s) = true.
Proof.
  induction s as [|c r IH]; simpl; [reflexivity|]. intros H.
  destruct (is_space c); [|exact H].
  apply andb_true_iff in H as [_ H]. now apply IH.
Qed.

Lemma all_chars_rstrip_keep (P : ascii -> bool) (s : string) :
  all_chars P s = true -> all_chars P (rstrip s) = true.
Proof.
  induction s as [|c r IH]; simpl; [reflexivity|]. intros H.
  apply andb_true_iff in H as [Hc H]. specialize (IH H).
  destruct (rstrip r) as [|c' r'].
  - destruct (is_space c); simpl; [reflexivity | now rewrite Hc].
  - simpl. rewrite Hc. exact IH.
Qed.

Lemma tokens_without_separator (sep : ascii -> bool) (s : string) :
  Forall (fun x => all_chars (fun c => negb (sep c)) x = true) (split_where sep s).
Proof.
  induction s as [|c r IH]; simpl.
  - now repeat constructor.
  - destruct (sep c) eqn:E.
    + constructor; [reflexivity | exact IH].
    + destruct (split_where sep r) as [|h t]; [repeat constructor; simpl; now rewrite E|].
      apply Forall_cons in IH as [Hh Ht]. constructor; [|exact Ht].
      simpl. now rewrite E.
Qed.

Lemma split_where_whole (sep : ascii -> bool) (s : string) :
  all_chars (fun c => negb (sep c)) s = true -> split_where sep s = [s].
Proof.
  induction s as [|c r IH]; simpl; [reflexivity|]. intros H.
  apply andb_true_iff in H as [Hc H]. apply negb_true_iff in Hc.
  rewrite Hc, (IH H). reflexivity.
Qed.

(** X3: no returned symbol contains a comma or a newline, and parsing a
    returned symbol gives that symbol back. *)
Theorem parse_tickers_symbol_fixed (txt t : string) (H : t ∈ parse_tickers txt) :
  all_chars (fun c => negb (is_separator c)) t = true /\ parse_tickers t = [t].
Proof.
  rewrite parse_tickers_tokens in H.
  apply list_elem_of_In, filter_In in H as [H Hne].
  apply in_map_iff in H as (x & <- & Hx).
  assert (Hsep : all_chars (fun c => negb (is_separator c)) (upper (strip x)) = true).
  { rewrite all_chars_upper. unfold strip.
    apply all_chars_rstrip_keep, all_chars_lstrip_keep.
    pose proof (tokens_without_separator is_separator txt) as HF.
    rewrite List.Forall_forall in HF. now apply HF. }
  split; [exact Hsep|].
  rewrite parse_tickers_tokens, (split_where_whole _ _ Hsep). simpl.
  rewrite strip_upper, strip_idem, upper_idem.
  now rewrite Hne.
Qed.

Lemma parse_tickers_symbol_fixed_witness :
  "MSFT" ∈ parse_tickers "aapl, msft" /\
  all_chars (fun c => negb (is_separator c)) "MSFT" = true /\
  parse_tickers "MSFT" = ["MSFT"].
Proof.
  assert (H : "MSFT" ∈ parse_tickers "aapl, msft")
    by (apply list_elem_of_In; vm_compute; tauto).
  split; [exact H|].
  exact (parse_tickers_symbol_fixed "aapl, msft" "MSFT" H).
Defined.

End ParserMore.

(* ===================================================================== *)
(** * Further properties of the fetcher *)
(* ===================================================================== *)

Module FetcherMore.
Import Frame Fetcher Notions FrameFacts FetcherFacts.

Lemma num_truthy_Some (o : option Q) :
  num_truthy o = true <-> exists q, o = Some q /\ ~ (q == 0)%Q.
Proof.
  unfold num_truthy. destruct o as [q|].
  - rewrite negb_true_iff. split.
    + intros H. exists q. split; [reflexivity|]. intros E.
      apply Qeq_bool_iff in E. congruence.
    + intros (q' & [= <-] & Hq). destruct (Qeq_bool q 0) eqn:E; [|reflexivity].
      apply Qeq_bool_iff in E. contradiction.
  - split; [discriminate | intros (q & H & _); discriminate].
Qed.

Lemma price_of_not_text (i : Info) (s : string) : price_of i <> Str s.
Proof.
  unfold price_of. destruct (num_truthy _); [|discriminate].
  apply get_or_nan_not_text.
Qed.

(** X4: the fetched price is the current price when that is present and not
    0, else the regular market price when that is present and not 0, else
    missing; so a fetched price is never 0 and never text, and it is
    missing exactly when neither field holds a number other than 0. *)
Theorem price_is_first_nonzero (i : Info) :
  (forall q, price_of i = Num q ->
     ~ (q == 0)%Q /\
     (currentPrice i = Some q \/
      (num_truthy (currentPrice i) = false /\ regularMarketPrice i = Some q))) /\
  (price_of i = NaN <->
     num_truthy (currentPrice i) = false /\ num_truthy (regularMarketPrice i) = false) /\
  (forall s, price_of i <> Str s).
Proof.
  unfold price_of, or_num.
  destruct (num_truthy (currentPrice i)) eqn:Ec.
  - rewrite Ec. apply num_truthy_Some in Ec as (c & Ec & Hc). rewrite Ec. simpl.
    split; [|split].
    + intros q [= <-]. split; [exact Hc | now left].
    + split; [discriminate | intros [H _]; discriminate].
    + discriminate.
  - destruct (num_truthy (regularMarketPrice i)) eqn:Er.
    + apply num_truthy_Some in Er as (m & Er & Hm). rewrite Er. simpl.
      split; [|split].
      * intros q [= <-]. split; [exact Hm | now right].
      * split; [discriminate | intros [_ H]; discriminate].
      * discriminate.
    + split; [|split]; [discriminate | tauto | discriminate].
Qed.

Lemma str_truthy_Some (o : option string) :
  str_truthy o = true <-> exists s, o = Some s /\ s <> EmptyString.
Proof.
  unfold str_truthy. destruct o as [s|].
  - rewrite ParserFacts.truthy_nonempty. split.
    + intros H. now exists s.
    + now intros (s' & [= <-] & H).
  - split; [discriminate | intros (s & H & _); discriminate].
Qed.

(** X5: the fetched name is the short name when that is present and not
    empty, else the long name when that is present and not empty, else
    the ticker itself; it is empty only for an empty ticker. *)
Theorem name_is_first_nonempty (i : Info) (ticker : string) :
  (str_truthy (shortName i) = true -> shortName i = Some (name_of i ticker)) /\
  (str_truthy (shortName i) = false -> str_truthy (longName i) = true ->
     longName i = Some (name_of i ticker)) /\
  (str_truthy (shortName i) = false -> str_truthy (longName i) = false ->
     name_of i ticker = ticker) /\
  (ticker <> EmptyString -> name_of i ticker <> EmptyString).
Proof.
  unfold name_of, or_str.
  destruct (str_truthy (shortName i)) eqn:Es.
  - rewrite Es. apply str_truthy_Some in Es as (s & Es & Hs). rewrite Es. simpl.
    repeat split; try discriminate. intros _. exact Hs.
  - destruct (str_truthy (longName i)) eqn:El.
    + apply str_truthy_Some in El as (s & El & Hs). rewrite El. simpl.
      repeat split; try discriminate. intros _. exact Hs.
    + repeat split; try discriminate. intros H. exact H.
Qed.

Lemma dropna_cases (col : list (option Q)) :
  (dropna col = [] /\ Forall (fun x => x = None) col) \/
  (exists pre v post,
     col = pre ++ Some v :: post /\ Forall (fun x => x = None) pre /\
     dropna col = v :: dropna post).
Proof.
  induction col as [|[v|] col IH].
  - left. split; [reflexivity | constructor].
  - right. exists [], v, col. split; [reflexivity|]. split; [constructor | reflexivity].
  - destruct IH as [[E F]|(pre & v & post & E & F & D)].
    + left. split; [exact E | now constructor].
    + right. exists (None :: pre), v, post.
      split; [now rewrite E|]. split; [now constructor | exact D].
Qed.

Lemma first_available_unique (pre pre' post post' : list (option Q)) (v v' : Q) :
  pre ++ Some v :: post = pre' ++ Some v' :: post' ->
  Forall (fun x => x = None) pre -> Forall (fun x => x = None) pre' -> v = v'.
Proof.
  revert pre'. induction pre as [|x pre IH]; intros [|x' pre'] E F F'; simpl in E.
  - now injection E.
  - injection E as E _. apply Forall_cons in F' as [F' _]. congruence.
  - injection E as E _. apply Forall_cons in F as [F _]. congruence.
  - injection E as _ E. apply Forall_cons in F as [_ F]. apply Forall_cons in F' as [_ F'].
    now apply (IH pre').
Qed.

(** X6: the analyst growth is a hundred times the first entry of the
    five-year column that is not missing; it is missing when reading the
    analysis raises or gives nothing, when the table lacks the column, or
    when every entry of the column is missing.  It is never text. *)
Theorem analyst_growth_first_available (a : AnalysisLookup) :
  (forall g, analyst_growth a = Num g <->
     exists pre v post,
       a = AnalysisTable (Some (pre ++ Some v :: post)) /\
       Forall (fun x => x = None) pre /\ g = (v * 100)%Q) /\
  (analyst_growth a = NaN <->
     a = AnalysisRaises \/ a = AnalysisNone \/ a = AnalysisTable None \/
     exists col, a = AnalysisTable (Some col) /\ Forall (fun x => x = None) col) /\
  (forall s, analyst_growth a <> Str s).
Proof.
  split; [|split; [|intros s; apply analyst_growth_not_text]].
  - intros g. destruct a as [| |[col|]]; simpl;
      try (split; [discriminate | intros (pre & v & post & E & _); discriminate]).
    destruct (dropna_cases col) as [[E F]|(pre & v & post & E & F & D)].
    + rewrite E. split; [discriminate|].
      intros (pre & v & post & [= ->] & _ & _). exfalso.
      rewrite Forall_app, Forall_cons in F. destruct F as (_ & F & _). discriminate.
    + rewrite D. split.
      * intros [= <-]. exists pre, v, post. now rewrite E.
      * intros (pre' & v' & post' & [= E'] & F' & ->). rewrite E in E'.
        now rewrite (first_available_unique _ _ _ _ _ _ E' F F').
  - destruct a as [| |[col|]]; simpl; try tauto.
    destruct (dropna_cases col) as [[E F]|(pre & v & post & E & F & D)].
    + rewrite E. split; [|reflexivity]. intros _. right. right. right. now exists col.
    + rewrite D. split; [discriminate|].
      intros [H|[H|[H|(col' & [= <-] & F')]]]; try discriminate. exfalso.
      rewrite E, Forall_app, Forall_cons in F'. destruct F' as (_ & F' & _). discriminate.
Qed.

End FetcherMore.

(* ===================================================================== *)
(** * Further properties of the batch and of a whole run *)
(* ===================================================================== *)

Module RunMore.
Import Frame Fetcher Screen Rowwise Notions.
Import FrameFacts ScreenFacts SortFacts RowFacts FetcherFacts PipelineFacts Pipeline Derivation.

Lemma add_labels_NoDup (acc ks : list string) : NoDup acc -> NoDup (add_labels acc ks).
Proof.
  unfold add_labels. revert acc. induction ks as [|k ks IH]; intros acc H; simpl.
  - exact H.
  - apply IH. destruct (decide (k ∈ acc)) as [Hk|Hk]; [exact H|].
    apply NoDup_app. split; [exact H|]. split.
    + intros x Hx Hx'. apply list_elem_of_singleton in Hx'. now subst x.
    + apply NoDup_singleton.
Qed.

Lemma union_labels_NoDup (ds : list dict) : NoDup (union_labels ds).
Proof.
  unfold union_labels.
  assert (G : forall acc, NoDup acc ->
            NoDup (fold_left (fun a d => add_labels a (dict_keys d)) ds acc)).
  { induction ds as [|d ds IH]; intros acc H; simpl; [exact H|].
    apply IH. now apply add_labels_NoDup. }
  apply G. apply NoDup_nil_2.
Qed.

Lemma returns_or_raises (p : Provider) (n : nat) (t : string) :
  returns p n t \/ raises p n t.
Proof.
  unfold returns, raises. destruct (fetch_summary p n t) as [d|msg]; eauto.
Qed.

Lemma returns_not_raises (p : Provider) (n : nat) (t : string) :
  returns p n t -> raises p n t -> False.
Proof. intros (d & Hd) (msg & Hm). congruence. Qed.

Lemma column_of_batch (p : Provider) (tickers : list string) (c : string) :
  c ∈ columns (batch_fetch p tickers)
  <-> exists i t, tickers !! i = Some t /\ c ∈ dict_keys (fetch_or_error p i t).
Proof.
  unfold batch_fetch, from_dicts. cbn [columns].
  rewrite elem_of_union_labels. split.
  - intros (d & Hd & Hc). apply list_elem_of_lookup in Hd as (i & Hd).
    apply fetched_dicts_lookup_inv in Hd as (t & Ht & ->). now exists i, t.
  - intros (i & t & Ht & Hc). exists (fetch_or_error p i t). split; [|exact Hc].
    apply list_elem_of_lookup. exists i. now apply fetched_dicts_lookup.
Qed.

Lemma keys_of_returned (p : Provider) (n : nat) (t : string) :
  returns p n t -> dict_keys (fetch_or_error p n t) = summary_keys.
Proof.
  intros Hr. destruct (fetch_or_error_keys p n t) as [(msg & Hm & _)|(i & a & _ & ->)].
  - exfalso. apply (returns_not_raises p n t Hr). now exists msg.
  - reflexivity.
Qed.

Lemma keys_of_raised (p : Provider) (n : nat) (t : string) :
  raises p n t -> dict_keys (fetch_or_error p n t) = ["Ticker"; "Error"].
Proof.
  intros Hr. destruct (fetch_or_error_keys p n t) as [(msg & _ & ->)|(i & a & Hd & _)].
  - reflexivity.
  - exfalso. apply (returns_not_raises p n t); [|exact Hr].
    exists (summary_of i a t). exact Hd.
Qed.

(** X8: the fetched table never repeats a column label; it has the Error
    column exactly when the fetch at some position raised, each of the
    seven summary columns besides Ticker exactly when the fetch at some
    position returned, and the Ticker column exactly when the ticker list
    is not empty. *)
Theorem batch_fetch_columns (p : Provider) (tickers : list string) :
  NoDup (columns (batch_fetch p tickers)) /\
  ("Error" ∈ columns (batch_fetch p tickers)
     <-> exists i t, tickers !! i = Some t /\ raises p i t) /\
  (forall c, c ∈ summary_keys -> c <> "Ticker" ->
     (c ∈ columns (batch_fetch p tickers)
        <-> exists i t, tickers !! i = Some t /\ returns p i t)) /\
  ("Ticker" ∈ columns (batch_fetch p tickers) <-> tickers <> []).
Proof.
  split; [apply union_labels_NoDup|]. split; [|split].
  - rewrite column_of_batch.
    split; intros (i & t & Ht & H); exists i, t; (split; [exact Ht|]).
    + destruct (returns_or_raises p i t) as [Hr|Hr]; [|exact Hr]. exfalso.
      rewrite (keys_of_returned p i t Hr) in H.
      apply list_elem_of_In in H. simpl in H. intuition discriminate.
    + rewrite (keys_of_raised p i t H). apply list_elem_of_In. simpl. tauto.
  - intros c Hc Hne. rewrite column_of_batch.
    split; intros (i & t & Ht & H); exists i, t; (split; [exact Ht|]).
    + destruct (returns_or_raises p i t) as [Hr|Hr]; [exact Hr|]. exfalso.
      rewrite (keys_of_raised p i t Hr) in H.
      apply list_elem_of_In in H. apply list_elem_of_In in Hc. simpl in H, Hc.
      destruct H as [<-|[<-|[]]]; [now apply Hne|]. intuition discriminate.
    + now rewrite (keys_of_returned p i t H).
  - rewrite column_of_batch. split.
    + intros (i & t & Ht & _) ->. discriminate.
    + destruct tickers as [|t ts]; [congruence|]. intros _.
      exists 0%nat, t. split; [reflexivity | apply ticker_in_fetched_keys].
Qed.

Lemma getitems_all_present (df : DataFrame) (cs : list string) :
  (forall c, c ∈ cs -> c ∈ columns df) ->
  getitems df cs = Ok (mkFrame cs (List.map (project_row cs) (rows df))).
Proof.
  intros H. unfold getitems.
  destruct (find _ cs) as [c|] eqn:E; [|reflexivity]. exfalso.
  apply find_some in E as [Hc Hn]. apply negb_true_iff, bool_decide_eq_false in Hn.
  apply Hn, H. now apply list_elem_of_In.
Qed.

Lemma summary_label_in_derived (cols : list string) (c : string) :
  c ∈ cols -> c ∈ derived_columns cols.
Proof. intros H. unfold derived_columns. label_in. Qed.

(** The run on a fetched table completes as soon as one fetch
    returned. *)
Lemma run_screen_completes (p : Provider) (rnd : Q -> Q) (cfg : Config)
    (tickers : list string) (i : nat) (t : string) :
  tickers !! i = Some t -> returns p i t ->
  exists o, run_screen rnd cfg (batch_fetch p tickers) = Ok o.
Proof.
  intros Ht Hr.
  assert (Hcol : forall c, c ∈ summary_keys -> c ∈ columns (batch_fetch p tickers)).
  { intros c Hc. apply column_of_batch. exists i, t. split; [exact Ht|].
    now rewrite (keys_of_returned p i t Hr). }
  assert (R : prepare_reads cfg (columns (batch_fetch p tickers))).
  { split; [|split]; [|intros _|]; apply Hcol; apply list_elem_of_In;
      [destruct (pe_col_cases cfg) as [-> | ->]| |]; simpl; tauto. }
  unfold run_screen. rewrite (derive_rowwise cfg _ R), bind_Ok.
  rewrite apply_filters_rowwise
    by (intros _; cbn [columns]; unfold derived_columns; label_in
        || (apply summary_label_in_derived, Hcol, list_elem_of_In; simpl; tauto)).
  rewrite bind_Ok.
  rewrite rank_rowwise; cbn [columns];
    [| unfold derived_columns; label_in
     | apply summary_label_in_derived, Hcol, list_elem_of_In; simpl; tauto].
  rewrite bind_Ok. unfold present.
  rewrite getitems_all_present.
  - rewrite bind_Ok. eauto.
  - intros c Hc. cbn [columns].
    repeat (apply elem_of_cons in Hc as [->|Hc]);
      try (now apply elem_of_nil in Hc);
      try (apply summary_label_in_derived, Hcol, list_elem_of_In; simpl; tauto);
      unfold derived_columns; label_in.
Qed.

(** X9: what pressing the button leads to: the warning when the text holds
    no symbol; the results when the fetch of at least one of its symbols
    returned; and, when the fetch of every symbol raised, the exception
    for the missing P/E column.  A division by zero never stops the
    run. *)
Theorem run_button_outcomes (p : Provider) (rnd : Q -> Q) (cfg : Config) (text : string) :
  (run_button p rnd cfg text = Warning <-> Parser.parse_tickers text = []) /\
  ((exists i t, Parser.parse_tickers text !! i = Some t /\ returns p i t) ->
     exists o, run_button p rnd cfg text = Results o) /\
  (Parser.parse_tickers text <> [] ->
   (forall i t, Parser.parse_tickers text !! i = Some t -> raises p i t) ->
     run_button p rnd cfg text = Exception (KeyError (pe_col cfg))) /\
  run_button p rnd cfg text <> Exception ZeroDivision.
Proof.
  unfold run_button.
  destruct (Parser.parse_tickers text) as [|t0 ts] eqn:Ep.
  - split; [tauto|]. split; [|split]; [| congruence | discriminate].
    intros (i & t & Ht & _). discriminate.
  - set (tickers := t0 :: ts) in *.
    assert (Hnz : run_screen rnd cfg (batch_fetch p tickers) <> Raise ZeroDivision).
    { unfold run_screen. intros H.
      apply bind_Raise_inv in H as [H|(d & _ & H)]; [now apply derive_no_zero_division in H|].
      apply bind_Raise_inv in H as [H|(f & _ & H)].
      { unfold apply_filters in H. cbv zeta in H.
        apply bind_Raise_inv in H as [H|(f1 & _ & H)].
        - destruct (Qlt_le_dec 0 (min_div_yield cfg)); [|discriminate].
          apply bind_Raise_inv in H as [H|(x & _ & H)]; [|discriminate].
          apply getitem_Raise_inv in H. discriminate.
        - destruct (Qlt_le_dec 0 (max_pegy cfg)); [|discriminate].
          apply bind_Raise_inv in H as [H|(x & _ & H)]; [|discriminate].
          apply getitem_Raise_inv in H. discriminate. }
      apply bind_Raise_inv in H as [H|(r & _ & H)].
      { unfold rank, sort_values in H.
        apply bind_Raise_inv in H as [H|(x & _ & H)];
          [apply getitem_Raise_inv in H; discriminate|].
        apply bind_Raise_inv in H as [H|(y & _ & H)];
          [apply getitem_Raise_inv in H; discriminate | discriminate]. }
      apply bind_Raise_inv in H as [H|(s & _ & H)]; [|discriminate].
      unfold present in H. apply bind_Raise_inv in H as [H|(s & _ & H)]; [|discriminate].
      unfold getitems in H. destruct (find _ presentation_columns); discriminate. }
    split; [split; [|discriminate]|].
    { destruct (run_screen rnd cfg (batch_fetch p tickers)); discriminate. }
    split; [|split].
    + intros (i & t & Ht & Hr).
      destruct (run_screen_completes p rnd cfg tickers i t Ht Hr) as (o & ->). eauto.
    + intros _ Hall.
      assert (Hpe : pe_col cfg ∉ columns (batch_fetch p tickers)).
      { intros H. apply column_of_batch in H as (i & t & Ht & H).
        rewrite (keys_of_raised p i t (Hall i t Ht)) in H.
        apply list_elem_of_In in H. simpl in H.
        destruct (pe_col_cases cfg) as [E|E]; rewrite E in H; intuition discriminate. }
      unfold run_screen, derive, prepare, getitem.
      destruct (decide (pe_col cfg ∈ columns (batch_fetch p tickers))); [contradiction|].
      reflexivity.
    + destruct (run_screen rnd cfg (batch_fetch p tickers)) as [o|e]; [discriminate|].
      intros [= ->]. now apply Hnz.
Qed.

End RunMore.

(* ===================================================================== *)
(** * Further properties of the derivation, the filters and the ranking *)
(* ===================================================================== *)

Module PipelineMore.
Import Frame Fetcher Screen Rowwise Notions.
Import FrameFacts ScreenFacts SortFacts RowFacts FetcherFacts PipelineFacts Pipeline Derivation.

Lemma derive_row_other (cfg : Config) (r : gmap string cell) (c : string) :
  c ∉ ["PE Used"; "Growth % Used"; "Dividend %"; "PEGY"] ->
  at_col c (derive_row cfg r) = at_col c r.
Proof.
  intros H. unfold derive_row.
  assert (Hne : forall k, k ∈ ["PE Used"; "Growth % Used"; "Dividend %"; "PEGY"] -> c <> k)
    by (intros k Hk ->; contradiction).
  rewrite pegy_row_other by (apply Hne, list_elem_of_In; simpl; tauto).
  apply prepare_row_other; apply Hne, list_elem_of_In; simpl; tauto.
Qed.

(** X10: the derivation keeps the rows in place and rewrites four columns
    only.  In each row the P/E used is the forward or the trailing P/E as
    configured; the dividend is the fetched dividend floored at 0; the
    growth used, floored at 0, is the manual growth in manual mode and
    also wherever the analyst growth is missing, and the analyst growth
    where that is a number; every other cell is left as it was. *)
Theorem derive_rewrites_four_columns (cfg : Config) (df derived : DataFrame)
    (H : derive cfg df = Ok derived) :
  length (rows derived) = length (rows df) /\
  forall i r0, rows df !! i = Some r0 ->
    exists r,
      rows derived !! i = Some r /\
      at_col "PE Used" r
        = at_col (match pe_type cfg with
                  | ForwardPE => "Forward PE"
                  | TrailingPE => "Trailing PE"
                  end) r0 /\
      at_col "Dividend %" r = clip_cell 0 (at_col "Dividend %" r0) /\
      (growth_source cfg = ManualOnly ->
         at_col "Growth % Used" r = clip_cell 0 (Num (manual_growth cfg))) /\
      (growth_source cfg = AnalystWithManualFallback ->
         at_col "Analyst 5y Growth %" r0 = NaN ->
         at_col "Growth % Used" r = clip_cell 0 (Num (manual_growth cfg))) /\
      (growth_source cfg = AnalystWithManualFallback ->
         forall a, at_col "Analyst 5y Growth %" r0 = Num a ->
         at_col "Growth % Used" r = clip_cell 0 (Num a)) /\
      (forall c, c ∉ ["PE Used"; "Growth % Used"; "Dividend %"; "PEGY"] ->
         at_col c r = at_col c r0).
Proof.
  apply derive_Ok_inv in H as (_ & ->). cbn [rows].
  split; [apply length_map|].
  intros i r0 Hi. exists (derive_row cfg r0).
  split; [now rewrite lookup_map, Hi|].
  assert (HG : at_col "Growth % Used" (derive_row cfg r0) = clip_cell 0 (growth_used cfg r0)).
  { unfold derive_row. rewrite pegy_row_other by discriminate. apply prepare_row_growth. }
  split; [|split; [|split; [|split; [|split]]]].
  - unfold derive_row. rewrite pegy_row_other by discriminate. apply prepare_row_pe.
  - unfold derive_row. rewrite pegy_row_other by discriminate. apply prepare_row_dividend.
  - intros E. rewrite HG. unfold growth_used. now rewrite E.
  - intros E Ha. rewrite HG. unfold growth_used. now rewrite E, Ha.
  - intros E a Ha. rewrite HG. unfold growth_used. now rewrite E, Ha.
  - apply derive_row_other.
Qed.

Lemma derive_rewrites_four_columns_witness :
  exists derived,
    derive Samples.analyst_config (batch_fetch Samples.provider Samples.three_tickers)
      = Ok derived /\
    length (rows derived)
      = length (rows (batch_fetch Samples.provider Samples.three_tickers)) /\
    forall i r0, rows (batch_fetch Samples.provider Samples.three_tickers) !! i = Some r0 ->
      exists r,
        rows derived !! i = Some r /\
        at_col "PE Used" r
          = at_col (match pe_type Samples.analyst_config with
                    | ForwardPE => "Forward PE"
                    | TrailingPE => "Trailing PE"
                    end) r0 /\
        at_col "Dividend %" r = clip_cell 0 (at_col "Dividend %" r0) /\
        (growth_source Samples.analyst_config = ManualOnly ->
           at_col "Growth % Used" r
           = clip_cell 0 (Num (manual_growth Samples.analyst_config))) /\
        (growth_source Samples.analyst_config = AnalystWithManualFallback ->
           at_col "Analyst 5y Growth %" r0 = NaN ->
           at_col "Growth % Used" r
           = clip_cell 0 (Num (manual_growth Samples.analyst_config))) /\
        (growth_source Samples.analyst_config = AnalystWithManualFallback ->
           forall a, at_col "Analyst 5y Growth %" r0 = Num a ->
           at_col "Growth % Used" r = clip_cell 0 (Num a)) /\
        (forall c, c ∉ ["PE Used"; "Growth % Used"; "Dividend %"; "PEGY"] ->
           at_col c r = at_col c r0).
Proof.
  assert (R : prepare_reads Samples.analyst_config
                (columns (batch_fetch Samples.provider Samples.three_tickers))).
  { split; [|split]; [|intros _|]; apply list_elem_of_In; vm_compute; tauto. }
  eexists. split; [exact (derive_rowwise _ _ R)|].
  exact (derive_rewrites_four_columns _ _ _ (derive_rowwise _ _ R)).
Defined.

Lemma add_cell_Num (a b : cell) (y : Q) :
  add_cell a b = Num y -> exists g d, a = Num g /\ b = Num d /\ y = (g + d)%Q.
Proof.
  destruct a as [s|g|], b as [t|d|]; simpl; try discriminate.
  intros [= <-]. now exists g, d.
Qed.

Lemma replace_zero_Num (x : cell) (y : Q) :
  replace_zero_cell x = Num y -> x = Num y /\ ~ (y == 0)%Q.
Proof.
  destruct x as [s|q|]; simpl; try discriminate.
  destruct (Qeq_bool q 0) eqn:E; [discriminate|]. intros [= <-].
  split; [reflexivity|]. intros Hq. apply Qeq_bool_iff in Hq. congruence.
Qed.

Lemma quot_cell_Num (a b : cell) (v : Q) :
  quot_cell a b = Num v -> exists x y, a = Num x /\ b = Num y /\ v = (x / y)%Q.
Proof.
  destruct a as [s|x|], b as [t|y|]; simpl; try discriminate.
  intros [= <-]. now exists x, y.
Qed.

(** X11: A PEGY that is a number was obtained by dividing by a strictly
    positive denominator: in every derived row with a PEGY the P/E used,
    the growth used and the dividend are numbers, the latter two are not
    negative, their sum is positive, and the PEGY is the quotient; so the
    PEGY of a P/E that is not negative is not negative. *)
Theorem pegy_denominator_positive (cfg : Config) (df derived : DataFrame)
    (H : derive cfg df = Ok derived) :
  forall r v, r ∈ rows derived -> at_col "PEGY" r = Num v ->
    exists pe g d,
      at_col "PE Used" r = Num pe /\ at_col "Growth % Used" r = Num g /\
      at_col "Dividend %" r = Num d /\
      (0 <= g)%Q /\ (0 <= d)%Q /\ (0 < g + d)%Q /\
      v = (pe / (g + d))%Q /\ ((0 <= pe)%Q -> (0 <= v)%Q).
Proof.
  apply derive_Ok_inv in H as (_ & ->). cbn [rows].
  intros r v Hr Hv. apply elem_of_map in Hr as (r0 & -> & _).
  destruct (derive_row_clamped cfg r0) as (HD & HG & HP).
  rewrite HP in Hv. unfold pegy_of in Hv.
  apply quot_cell_Num in Hv as (pe & y & Hpe & Hy & ->).
  apply replace_zero_Num in Hy as (Hy & Hnz).
  apply add_cell_Num in Hy as (g & d & Hg & Hd & ->).
  exists pe, g, d.
  pose proof (HG g Hg) as Hg0. pose proof (HD d Hd) as Hd0.
  assert (Hpos : (0 < g + d)%Q).
  { apply Qle_lteq in Hg0 as [Hg0|Hg0].
    - apply Qlt_le_trans with (y := (g + 0)%Q); [now rewrite Qplus_0_r|].
      now apply Qplus_le_r.
    - apply Qle_lteq in Hd0 as [Hd0|Hd0].
      + rewrite <- Hg0, Qplus_0_l. exact Hd0.
      + exfalso. apply Hnz. now rewrite <- Hg0, <- Hd0. }
  repeat (split; [assumption || reflexivity|]).
  intros Hpe0. unfold Qdiv. apply Qmult_le_0_compat; [exact Hpe0|].
  apply Qinv_le_0_compat. now apply Qlt_le_weak.
Qed.

Lemma pegy_denominator_positive_witness :
  exists derived,
    derive Samples.negative_config (batch_fetch Samples.provider Samples.three_tickers)
      = Ok derived /\
    forall r v, r ∈ rows derived -> at_col "PEGY" r = Num v ->
      exists pe g d,
        at_col "PE Used" r = Num pe /\ at_col "Growth % Used" r = Num g /\
        at_col "Dividend %" r = Num d /\
        (0 <= g)%Q /\ (0 <= d)%Q /\ (0 < g + d)%Q /\
        v = (pe / (g + d))%Q /\ ((0 <= pe)%Q -> (0 <= v)%Q).
Proof.
  assert (R : prepare_reads Samples.negative_config
                (columns (batch_fetch Samples.provider Samples.three_tickers))).
  { split; [|split]; [|discriminate|]; apply list_elem_of_In; vm_compute; tauto. }
  eexists. split; [exact (derive_rowwise _ _ R)|].
  exact (pegy_denominator_positive _ _ _ (derive_rowwise _ _ R)).
Defined.

End PipelineMore.

Module RankMore.
Import Frame Fetcher Screen Rowwise Notions.
Import FrameFacts ScreenFacts SortFacts RowFacts FetcherFacts PipelineFacts Pipeline Derivation.

Lemma apply_filters_reads (cfg : Config) (df filtered : DataFrame) :
  apply_filters cfg df = Ok filtered ->
  ((0 < min_div_yield cfg)%Q -> "Dividend %" ∈ columns df) /\
  ((0 < max_pegy cfg)%Q -> "PEGY" ∈ columns df).
Proof.
  intros H. unfold apply_filters in H. cbv zeta in H.
  apply bind_Ok_inv in H as (f1 & Hf1 & H).
  assert (Hcols : columns f1 = columns df).
  { destruct (Qlt_le_dec 0 (min_div_yield cfg)).
    - apply bind_Ok_inv in Hf1 as (d & _ & Hf1). now injection Hf1 as <-.
    - now injection Hf1 as <-. }
  split.
  - intros Hmin. destruct (Qlt_le_dec 0 (min_div_yield cfg)) as [_|Hle].
    + apply bind_Ok_inv in Hf1 as (d & Hd & _). now apply getitem_Ok_inv in Hd as [Hd _].
    + exfalso. now apply (Qlt_not_le _ _ Hmin).
  - intros Hmax. destruct (Qlt_le_dec 0 (max_pegy cfg)) as [_|Hle].
    + apply bind_Ok_inv in H as (g & Hg & _). apply getitem_Ok_inv in Hg as [Hg _].
      now rewrite Hcols in Hg.
    + exfalso. now apply (Qlt_not_le _ _ Hmax).
Qed.

Lemma filter_idem {X : Type} (f : X -> bool) (l : list X) :
  List.filter f (List.filter f l) = List.filter f l.
Proof.
  rewrite filter_filter. apply filter_ext. intros x. apply andb_diag.
Qed.

Lemma keep_row_off (cfg : Config) (r : gmap string cell) :
  (min_div_yield cfg <= 0)%Q -> (max_pegy cfg <= 0)%Q -> keep_row cfg r = true.
Proof.
  intros Hmin Hmax. unfold keep_row.
  destruct (Qlt_le_dec 0 (min_div_yield cfg)) as [H|_];
    [exfalso; now apply (Qlt_not_le _ _ H)|].
  destruct (Qlt_le_dec 0 (max_pegy cfg)) as [H|_];
    [exfalso; now apply (Qlt_not_le _ _ H)|].
  reflexivity.
Qed.

(** X12: with both thresholds at 0 the filter step returns its table as it
    is, whatever columns the table has; and filtering an already filtered
    table with the same thresholds changes nothing. *)
Theorem filters_off_and_idempotent (cfg : Config) (df : DataFrame) :
  ((min_div_yield cfg <= 0)%Q -> (max_pegy cfg <= 0)%Q -> apply_filters cfg df = Ok df) /\
  (forall filtered, apply_filters cfg df = Ok filtered ->
     apply_filters cfg filtered = Ok filtered).
Proof.
  split.
  - intros Hmin Hmax. rewrite apply_filters_rowwise.
    + destruct df as [cols rs]. cbn [columns rows]. f_equal. f_equal.
      rewrite <- (filter_all rs) at 2. apply filter_ext.
      intros r. now apply keep_row_off.
    + intros H. exfalso. now apply (Qlt_not_le _ _ H).
    + intros H. exfalso. now apply (Qlt_not_le _ _ H).
  - intros filtered H.
    destruct (apply_filters_reads cfg df filtered H) as (HD & HP).
    apply apply_filters_Ok_inv in H. subst filtered.
    rewrite apply_filters_rowwise by assumption.
    cbn [columns rows]. now rewrite filter_idem.
Qed.

Lemma stable_sort_of_sorted {X : Type} (leb : X -> X -> bool) (l : list X) :
  StronglySorted (fun a b => leb a b = true) l -> stable_sort leb l = l.
Proof.
  intros Hs. induction Hs as [|x t Ht IH Hx]; simpl; [reflexivity|].
  rewrite IH. destruct t as [|y t']; [reflexivity|]. simpl.
  apply Forall_cons in Hx as [Hxy _]. now rewrite Hxy.
Qed.

(** X13: ranking keeps the number of rows, and ranking a ranked table
    returns it unchanged. *)
Theorem rank_idempotent (df out : DataFrame) (H : rank df = Ok out) :
  length (rows out) = length (rows df) /\ rank out = Ok out.
Proof.
  apply rank_Ok_inv in H as (HP & HT & ->). cbn [rows]. split.
  - symmetry. apply Permutation_length, stable_sort_perm.
  - rewrite rank_rowwise by assumption. cbn [columns rows].
    rewrite stable_sort_of_sorted; [reflexivity|].
    apply stable_sort_sorted; [apply keys_leb_total | apply keys_leb_trans].
Qed.

Lemma rank_idempotent_witness :
  rank Samples.unsorted = Ok Samples.sorted /\
  length (rows Samples.sorted) = length (rows Samples.unsorted) /\
  rank Samples.sorted = Ok Samples.sorted.
Proof.
  assert (H : rank Samples.unsorted = Ok Samples.sorted) by (vm_compute; reflexivity).
  split; [exact H|].
  exact (rank_idempotent Samples.unsorted Samples.sorted H).
Defined.

(** ** The ranking of a fetched table leaves no freedom *)

Lemma sorted_permutation_unique {X : Type} (R : X -> X -> Prop) (l1 l2 : list X) :
  (forall x y, x ∈ l1 -> y ∈ l1 -> R x y -> R y x -> x = y) ->
  Permutation l1 l2 -> StronglySorted R l1 -> StronglySorted R l2 -> l1 = l2.
Proof.
  revert l2. induction l1 as [|x t1 IH]; intros l2 Hanti Hp H1 H2.
  - apply Permutation_nil in Hp. now subst.
  - destruct l2 as [|y t2]; [symmetry in Hp; now apply Permutation_nil_cons in Hp|].
    inversion H1 as [|? ? Ht1 Hx]; subst. inversion H2 as [|? ? Ht2 Hy]; subst.
    rewrite List.Forall_forall in Hx, Hy.
    assert (Exy : x = y).
    { assert (Hyin : In y (x :: t1))
        by (apply (Permutation_in y (Permutation_sym Hp)); now left).
      assert (Hxin : In x (y :: t2)) by (apply (Permutation_in x Hp); now left).
      destruct Hyin as [E|Hyin]; [exact E|].
      destruct Hxin as [E|Hxin]; [now symmetry|].
      apply Hanti; [left | right; now apply list_elem_of_In | now apply Hx | now apply Hy]. }
    subst y. f_equal. apply IH.
    + intros a b Ha Hb. apply Hanti; now right.
    + now apply Permutation_cons_inv in Hp.
    + exact Ht1.
    + exact Ht2.
Qed.

Lemma tied_same_ticker (r s : gmap string cell) :
  tied r s -> text_compare (at_col "Ticker" r) (at_col "Ticker" s) = Eq.
Proof.
  unfold tied, ranks_before. intros [H1 H2].
  pose proof (cmp_opp (cmp := text_compare) (at_col "Ticker" r) (at_col "Ticker" s)) as Ho.
  assert (G : text_compare (at_col "Ticker" r) (at_col "Ticker" s) <> Gt ->
              text_compare (at_col "Ticker" s) (at_col "Ticker" r) <> Gt ->
              text_compare (at_col "Ticker" r) (at_col "Ticker" s) = Eq).
  { intros A B. rewrite Ho in B.
    destruct (text_compare (at_col "Ticker" r) (at_col "Ticker" s)); simpl in B; congruence. }
  destruct (at_col "PEGY" r) as [a|x|], (at_col "PEGY" s) as [b|y|];
    try contradiction; try (now apply G).
  destruct H1 as [L1|[E1 A]], H2 as [L2|[E2 B]].
  - exfalso. apply (Qlt_irrefl x). now apply (Qlt_trans x y x).
  - exfalso. rewrite E2 in L1. now apply (Qlt_irrefl x).
  - exfalso. rewrite E1 in L2. now apply (Qlt_irrefl y).
  - now apply G.
Qed.

Lemma derived_fetched_row (p : Provider) (cfg : Config) (tickers : list string)
    (derived : DataFrame) (r : gmap string cell) :
  derive cfg (batch_fetch p tickers) = Ok derived -> r ∈ rows derived ->
  exists i t, tickers !! i = Some t /\
    r = derive_row cfg (row_of (columns (batch_fetch p tickers)) (fetch_or_error p i t)) /\
    at_col "Ticker" r = Str t.
Proof.
  intros Hd Hr. apply derive_Ok_inv in Hd as (_ & ->). cbn [rows] in Hr.
  apply elem_of_map in Hr as (r0 & -> & Hr0).
  apply list_elem_of_lookup in Hr0 as (i & Hi).
  apply batch_fetch_lookup_inv in Hi as (t & Ht & ->).
  exists i, t. split; [exact Ht|]. split; [reflexivity|].
  unfold derive_row. rewrite pegy_row_other by discriminate.
  rewrite prepare_row_other by discriminate.
  rewrite at_col_row_of
    by (eapply fetched_label_in_columns; [exact Ht | apply ticker_in_fetched_keys]).
  destruct (fetch_or_error_keys p i t) as [(msg & _ & ->)|(inf & a & _ & ->)]; reflexivity.
Qed.

(** X14: when the fetches of a ticker that is listed more than once
    agree (as they do when the later ones are served from the result
    cache), two rows that tie on PEGY and ticker are the same row, so the
    ranking leaves no freedom: the ranked table of a run is the only
    arrangement of its rows that ascends by (PEGY, Ticker) with the
    missing PEGY last, however the sort treats ties. *)
Theorem ranking_is_determined (p : Provider) (rnd : Q -> Q) (cfg : Config)
    (tickers : list string) (o : Output) (l : list (gmap string cell))
    (Hsame : forall i j t, tickers !! i = Some t -> tickers !! j = Some t ->
               fetch_summary p i t = fetch_summary p j t)
    (H : run_screen rnd cfg (batch_fetch p tickers) = Ok o)
    (Hperm : Permutation (rows (ranked o)) l)
    (Hsorted : StronglySorted ranks_before l) :
  l = rows (ranked o).
Proof.
  destruct (ranked_of_derived _ _ _ H) as (derived & Hd & _ & Hp & Hs).
  symmetry. apply (sorted_permutation_unique ranks_before); try assumption.
  intros r s Hr Hs' Hrs Hsr.
  assert (Hin : forall x, x ∈ rows (ranked o) -> x ∈ rows derived).
  { intros x Hx. rewrite <- Hp in Hx. now apply elem_of_filter in Hx as [Hx _]. }
  destruct (derived_fetched_row p cfg tickers derived r Hd (Hin r Hr))
    as (i & t1 & Hi & Er & Tr).
  destruct (derived_fetched_row p cfg tickers derived s Hd (Hin s Hs'))
    as (j & t2 & Hj & Es & Ts).
  pose proof (tied_same_ticker r s (conj Hrs Hsr)) as HT.
  rewrite Tr, Ts in HT. simpl in HT.
  destruct (String_as_OT.compare_spec t1 t2) as [E|L|G]; try discriminate.
  unfold String_as_OT.eq in E. subst t2. rewrite Er, Es.
  unfold fetch_or_error. now rewrite (Hsame i j t1 Hi Hj).
Qed.

Lemma ranking_is_determined_witness :
  exists o,
    (forall i j t, ["KO"; "AAPL"; "BAD"; "AAPL"] !! i = Some t ->
       ["KO"; "AAPL"; "BAD"; "AAPL"] !! j = Some t ->
       fetch_summary Samples.provider i t = fetch_summary Samples.provider j t) /\
    run_screen Samples.half_even Samples.unfiltered_config
      (batch_fetch Samples.provider ["KO"; "AAPL"; "BAD"; "AAPL"]) = Ok o /\
    stable_sort (keys_leb "PEGY" "Ticker") (rev (rows (ranked o))) = rows (ranked o).
Proof.
  assert (Hsame : forall i j t, ["KO"; "AAPL"; "BAD"; "AAPL"] !! i = Some t ->
            ["KO"; "AAPL"; "BAD"; "AAPL"] !! j = Some t ->
            fetch_summary Samples.provider i t = fetch_summary Samples.provider j t)
    by (intros i j t _ _; reflexivity).
  destruct (run_screen Samples.half_even Samples.unfiltered_config
              (batch_fetch Samples.provider ["KO"; "AAPL"; "BAD"; "AAPL"]))
    as [o|e] eqn:E.
  - exists o. split; [exact Hsame|]. split; [reflexivity|].
    apply (ranking_is_determined Samples.provider Samples.half_even
             Samples.unfiltered_config ["KO"; "AAPL"; "BAD"; "AAPL"] o _ Hsame E).
    + rewrite <- stable_sort_perm. apply Permutation_rev.
    + apply ranked_rows_sorted.
  - exfalso. vm_compute in E. discriminate E.
Defined.

(** Without that agreement the ranking is not determined: when the first
    fetch of a ticker listed twice returns a summary without P/E and the
    second raises, the two rows tie on a missing PEGY and on the ticker and
    yet differ, and either order of them ascends. *)
Example ranking_needs_agreeing_fetches :
  exists o,
    run_screen Samples.half_even Samples.unfiltered_config
      (batch_fetch Samples.flaky_provider ["XYZ"; "XYZ"]) = Ok o /\
    List.map (at_col "Error") (rows (ranked o)) = [NaN; Str "timeout"] /\
    Permutation (rows (ranked o)) (rev (rows (ranked o))) /\
    StronglySorted ranks_before (rev (rows (ranked o))) /\
    rev (rows (ranked o)) <> rows (ranked o).
Proof.
  eexists. split; [vm_compute; reflexivity|]. split; [vm_compute; reflexivity|].
  split; [apply Permutation_rev|]. split.
  - apply (sorted_weaken (fun r s => keys_leb "PEGY" "Ticker" r s = true)).
    + intros r s H. now apply keys_leb_ranks_before.
    + repeat constructor.
  - intros E. apply (f_equal (List.map (at_col "Error"))) in E.
    vm_compute in E. discriminate E.
Qed.

End RankMore.

(* ===================================================================== *)
(** * Further properties of the display and of the export *)
(* ===================================================================== *)

Module DisplayMore.
Import Frame Fetcher Screen Rowwise Notions.
Import FrameFacts ScreenFacts SortFacts RowFacts FetcherFacts PipelineFacts Pipeline Derivation.

(** X15: the table handed to the display is a rounded copy of the ranked
    table: it has the eight presentation columns and the same rows in the
    same order; ticker, name and sector are as in the ranked table; each
    numeric cell is the display rounding of the ranked cell, a missing
    cell staying missing.  Building it raises only for a presentation
    column that the ranked table lacks, and succeeds when none is
    lacking. *)
Theorem presentation_is_rounded_copy (rnd : Q -> Q) (df : DataFrame) :
  (forall table, present rnd df = Ok table ->
     columns table = presentation_columns /\
     length (rows table) = length (rows df) /\
     forall i r, rows df !! i = Some r ->
       exists r', rows table !! i = Some r' /\
         (forall c, c ∈ ["Ticker"; "Name"; "Sector"] -> at_col c r' = at_col c r) /\
         (forall c, c ∈ rounded_columns ->
            at_col c r' = round_cell rnd (at_col c r) /\
            (at_col c r = NaN -> at_col c r' = NaN) /\
            (forall q, at_col c r = Num q -> at_col c r' = Num (rnd q)))) /\
  (forall e, present rnd df = Raise e ->
     exists c, c ∈ presentation_columns /\ (c ∉ columns df) /\ e = KeyError c) /\
  ((forall c, c ∈ presentation_columns -> c ∈ columns df) ->
     exists table, present rnd df = Ok table).
Proof.
  split; [|split].
  - intros table H.
    destruct (Runs.present_Ok_inv rnd df table H) as (Hc & Hl & Hrows).
    split; [exact Hc|]. split; [exact Hl|].
    intros i r Hi. destruct (Hrows i r Hi) as (r' & Hi' & Ht & Hn).
    exists r'. split; [exact Hi'|]. split; [exact Ht|].
    intros c Hc'. pose proof (Hn c Hc') as E. split; [exact E|].
    split; [intros E' | intros q E']; rewrite E, E'; reflexivity.
  - intros e H. unfold present in H.
    apply bind_Raise_inv in H as [H|(sel & _ & H)]; [|discriminate].
    now apply Runs.getitems_Raise_inv.
  - intros Hall. unfold present.
    destruct (getitems df presentation_columns) as [sel|e] eqn:E; [eauto|].
    apply Runs.getitems_Raise_inv in E as (c & Hc & Hn & _). exfalso. now apply Hn, Hall.
Qed.

(** X16: the header of the export of a run never repeats a label, and the
    field of a record that stands under a label is the cell of the
    ranked row in the column of that label. *)
Theorem export_fields_by_label (p : Provider) (tickers : list string) (cfg : Config)
    (rnd : Q -> Q) (o : Output) (H : run_screen rnd cfg (batch_fetch p tickers) = Ok o) :
  NoDup (header (csv o)) /\
  forall i r, rows (ranked o) !! i = Some r ->
    exists rec, records (csv o) !! i = Some rec /\
      forall j c, header (csv o) !! j = Some c -> rec !! j = Some (at_col c r).
Proof.
  destruct (ranked_of_derived _ _ _ H) as (derived & Hd & Hc & _ & _).
  apply derive_Ok_inv in Hd as (_ & ->). cbn [columns] in Hc.
  rewrite CsvExport.derived_columns_fetched in Hc.
  apply run_screen_Ok_inv in H as (_ & _ & table & _ & _ & _ & _ & E).
  assert (Hh : header (csv o) = columns (ranked o)) by (rewrite E; reflexivity).
  assert (Hr : records (csv o) = List.map (cells_of (header (csv o))) (rows (ranked o)))
    by (rewrite E; reflexivity).
  split.
  - rewrite Hh, Hc. apply NoDup_app. split; [apply RunMore.union_labels_NoDup|]. split.
    + intros c Hin Hin'. now apply (CsvExport.derived_labels_fresh p tickers c).
    + repeat (apply NoDup_cons; split;
              [rewrite list_elem_of_In; simpl; intuition discriminate|]).
      apply NoDup_nil_2.
  - intros i r Hi. exists (cells_of (header (csv o)) r).
    split; [now rewrite Hr, lookup_map, Hi|].
    intros j c Hj. unfold cells_of. now rewrite lookup_map, Hj.
Qed.

Lemma export_fields_by_label_witness :
  exists o,
    run_screen Samples.half_even Samples.unfiltered_config
      (batch_fetch Samples.provider Samples.three_tickers) = Ok o /\
    NoDup (header (csv o)) /\
    forall i r, rows (ranked o) !! i = Some r ->
      exists rec, records (csv o) !! i = Some rec /\
        forall j c, header (csv o) !! j = Some c -> rec !! j = Some (at_col c r).
Proof.
  destruct (run_screen Samples.half_even Samples.unfiltered_config
              (batch_fetch Samples.provider Samples.three_tickers)) as [o|e] eqn:E.
  - exists o. split; [reflexivity|].
    exact (export_fields_by_label Samples.provider Samples.three_tickers
             Samples.unfiltered_config Samples.half_even o E).
  - exfalso. vm_compute in E. discriminate E.
Defined.

End DisplayMore.
